(** * Google Drive client: credential lifecycle, path resolution and content codec

    A shallow embedding of [google_drive_integration.py] (class
    [GoogleDriveAPIClient]) together with the few Python library primitives
    it relies on, followed by the properties of the client established on it.

    Conventions.
    - A Python [str] is a [string]; its characters are the code points below
      256.  [bytes] are lists of [byte].
    - An exception is a value [exn]; a computation that may raise returns an
      [outcome].
    - The remote service, the token endpoint and the document libraries are
      oracles collected in the record [environment]; every request that the
      code of the client makes is recorded in the [trace] of the [state]. *)

From Stdlib Require Import String Ascii List ZArith NArith Lia Bool DecimalString.
From Stdlib.Strings Require Import Byte.
Import ListNotations.
Local Open Scope string_scope.

(* ===================================================================== *)
(** ** Python values and string primitives *)
(* ===================================================================== *)

Module Py.

Definition bytes := list byte.

(** An exception instance: the name of its class and [str(e)].  All the
    exceptions raised by the calls of the client derive from [Exception]. *)
Record exn := Exn { exn_class : string; exn_str : string }.

Inductive outcome (A : Type) : Type :=
| Ok (a : A)
| Raise (e : exn).
Arguments Ok {A} a.
Arguments Raise {A} e.

Definition ord (c : ascii) : N := N_of_ascii c.
Definition chr (n : N) : ascii := ascii_of_N n.

Definition byte_of_code (n : N) : byte := byte_of_ascii (ascii_of_N n).
Definition code_of_byte (b : byte) : N := N_of_ascii (ascii_of_byte b).

(** Truthiness of a [str]: the empty string is false. *)
Definition truthy (s : string) : bool :=
  match s with EmptyString => false | String _ _ => true end.

(** Truthiness of an optional [str] ([None] and [""] are false). *)
Definition truthy_opt (o : option string) : bool :=
  match o with None => false | Some s => truthy s end.

(** [str.lower()] on one character: the letters A-Z and the Latin-1 capitals
    (except the multiplication sign) move 32 places up. *)
Definition lower_char (c : ascii) : ascii :=
  let n := ord c in
  if ((65 <=? n) && (n <=? 90) ||
      (192 <=? n) && (n <=? 222) && negb (n =? 215))%N
  then chr (n + 32) else c.

Fixpoint lower (s : string) : string :=
  match s with
  | EmptyString => EmptyString
  | String c r => String (lower_char c) (lower r)
  end.

(** [s.split(sep)] for a separator of one character. *)
Fixpoint split (sep : ascii) (s : string) : list string :=
  match s with
  | EmptyString => [EmptyString]
  | String c r =>
      if Ascii.eqb c sep then EmptyString :: split sep r
      else match split sep r with
           | [] => [String c EmptyString]
           | w :: ws => String c w :: ws
           end
  end.

(** Line boundaries of [str.splitlines()] among the code points below 256:
    LF, VT, FF, CR, FS, GS, RS and NEL; CR LF counts as one boundary. *)
Definition is_linebreak (c : ascii) : bool :=
  let n := ord c in
  ((n =? 10) || (n =? 11) || (n =? 12) || (n =? 13) ||
   (n =? 28) || (n =? 29) || (n =? 30) || (n =? 133))%N.

Fixpoint splitlines (s : string) : list string :=
  match s with
  | EmptyString => []
  | String c r =>
      if is_linebreak c then
        match r with
        | String c2 r2 =>
            if ((ord c =? 13) && (ord c2 =? 10))%N
            then EmptyString :: splitlines r2
            else EmptyString :: splitlines r
        | EmptyString => EmptyString :: splitlines r
        end
      else match splitlines r with
           | [] => [String c EmptyString]
           | w :: ws => String c w :: ws
           end
  end.

(** [sep.join(items)]. *)
Definition join (sep : string) (items : list string) : string :=
  String.concat sep items.

(** [s.endswith(suffix)]. *)
Definition endswith (s suffix : string) : bool :=
  let n := String.length s in
  let k := String.length suffix in
  (k <=? n)%nat && String.eqb (substring (n - k) k s) suffix.

(** [s.startswith(prefix)]. *)
Definition startswith (s pre : string) : bool := String.prefix pre s.

(** [s.rfind(c)] for one character: the highest index, or -1. *)
Fixpoint rfind_from (c : ascii) (s : string) (i : Z) (found : Z) : Z :=
  match s with
  | EmptyString => found
  | String d r => rfind_from c r (i + 1) (if Ascii.eqb d c then i else found)
  end.

Definition rfind (c : ascii) (s : string) : Z := rfind_from c s 0 (-1).

(** The slices [s[:i]] and [s[i:]] for [0 <= i]. *)
Definition slice_to (s : string) (i : Z) : string :=
  substring 0 (Z.to_nat i) s.
Definition slice_from (s : string) (i : Z) : string :=
  substring (Z.to_nat i) (String.length s - Z.to_nat i) s.

(** [s.encode("utf-8")] on the strings of the model: one byte below 128,
    two bytes from 128 to 255.  (Python raises on a lone surrogate, a code
    point that these strings do not hold.) *)
Fixpoint encode_utf8 (s : string) : bytes :=
  match s with
  | EmptyString => []
  | String c r =>
      let n := ord c in
      if (n <? 128)%N then byte_of_code n :: encode_utf8 r
      else byte_of_code (192 + N.shiftr n 6)
           :: byte_of_code (128 + N.land n 63) :: encode_utf8 r
  end.

(** [s.encode("ascii")], which raises on a character from 128 up. *)
Fixpoint encode_ascii (s : string) : option bytes :=
  match s with
  | EmptyString => Some []
  | String c r =>
      if (ord c <? 128)%N
      then option_map (cons (byte_of_code (ord c))) (encode_ascii r)
      else None
  end.

(** [str(n)] for a natural number. *)
Definition str_of_N (n : N) : string := NilZero.string_of_uint (N.to_uint n).

End Py.

(* ===================================================================== *)
(** ** [os.path.splitext] (POSIX flavour) *)
(* ===================================================================== *)

Module PosixPath.
Import Py.

(** The loop that skips the leading dots of the file name: it looks at the
    [n] characters from [filenameIndex] on and answers whether one of them
    is not a dot. *)
Fixpoint has_non_dot (p : string) (filenameIndex : nat) (n : nat) : bool :=
  match n with
  | O => false
  | S n' =>
      match String.get filenameIndex p with
      | Some c =>
          if negb (Ascii.eqb c "."%char) then true
          else has_non_dot p (S filenameIndex) n'
      | None => true
      end
  end.

Definition splitext (p : string) : string * string :=
  let sepIndex := rfind "/"%char p in
  let dotIndex := rfind "."%char p in
  if (sepIndex <? dotIndex)%Z then
    if has_non_dot p (Z.to_nat (sepIndex + 1))
                     (Z.to_nat (dotIndex - (sepIndex + 1)))
    then (slice_to p dotIndex, slice_from p dotIndex)
    else (p, EmptyString)
  else (p, EmptyString).

(** Where the dots and the slashes of a name are. *)
Fixpoint marks (s : string) : list (bool * bool) :=
  match s with
  | EmptyString => []
  | String c r => (Ascii.eqb c "."%char, Ascii.eqb c "/"%char) :: marks r
  end.

End PosixPath.

(* ===================================================================== *)
(** ** [base64.b64decode] and [base64.b64encode] *)
(* ===================================================================== *)

Module Base64.
Import Py.

(** The decoding table: the value of a character of the alphabet. *)
Definition table_a2b (n : N) : option N :=
  if ((65 <=? n) && (n <=? 90))%N then Some (n - 65)%N
  else if ((97 <=? n) && (n <=? 122))%N then Some (n - 71)%N
  else if ((48 <=? n) && (n <=? 57))%N then Some (n + 4)%N
  else if (n =? 43)%N then Some 62%N
  else if (n =? 47)%N then Some 63%N
  else None.

Definition padding_error : exn := Exn "binascii.Error" "Incorrect padding".

Definition length_error (produced : nat) : exn :=
  Exn "binascii.Error"
      ("Invalid base64-encoded string: number of data characters ("
       ++ str_of_N (N.of_nat produced / 3 * 4 + 1)
       ++ ") cannot be 1 more than a multiple of 4").

(** [binascii.a2b_base64] without strict mode.  Characters outside the
    alphabet are skipped; a pad that completes a quad ends the decoding;
    the input is rejected only when it stops inside a quad.  [out] is the
    output so far, last byte first. *)
Fixpoint a2b_loop (data : list N) (quad_pos leftchar pads : N)
         (out : list N) : outcome (list N) :=
  match data with
  | [] =>
      if (quad_pos =? 0)%N then Ok (rev out)
      else if (quad_pos =? 1)%N then Raise (length_error (List.length out))
      else Raise padding_error
  | this_ch :: rest =>
      if (this_ch =? 61)%N then
        if (2 <=? quad_pos)%N then
          if (4 <=? quad_pos + (pads + 1))%N then Ok (rev out)
          else a2b_loop rest quad_pos leftchar (pads + 1) out
        else a2b_loop rest quad_pos leftchar pads out
      else
        match table_a2b this_ch with
        | None => a2b_loop rest quad_pos leftchar pads out
        | Some v =>
            if (quad_pos =? 0)%N then a2b_loop rest 1 v 0 out
            else if (quad_pos =? 1)%N then
              a2b_loop rest 2 (N.land v 15) 0
                       (N.lor (N.shiftl leftchar 2) (N.shiftr v 4) :: out)
            else if (quad_pos =? 2)%N then
              a2b_loop rest 3 (N.land v 3) 0
                       (N.lor (N.shiftl leftchar 4) (N.shiftr v 2) :: out)
            else
              a2b_loop rest 0 0 0 (N.lor (N.shiftl leftchar 6) v :: out)
        end
  end.

(** [base64.b64decode(s)] on a [str]: the string must be ASCII, then the
    lenient decoder runs ([validate] is left at its default, false). *)
Definition b64decode (s : string) : outcome bytes :=
  match encode_ascii s with
  | None =>
      Raise (Exn "ValueError"
                 "string argument should contain only ASCII characters")
  | Some data =>
      match a2b_loop (map code_of_byte data) 0 0 0 [] with
      | Ok out => Ok (map byte_of_code out)
      | Raise e => Raise e
      end
  end.

Definition table_b2a (v : N) : ascii :=
  if (v <? 26)%N then chr (v + 65)
  else if (v <? 52)%N then chr (v + 71)
  else if (v <? 62)%N then chr (v - 4)
  else if (v =? 62)%N then "+"%char
  else "/"%char.

(** [binascii.b2a_base64] without the final newline. *)
Fixpoint b2a (data : list N) : string :=
  match data with
  | [] => EmptyString
  | [a] =>
      String (table_b2a (N.shiftr a 2))
        (String (table_b2a (N.shiftl (N.land a 3) 4)) "==")
  | [a; b] =>
      String (table_b2a (N.shiftr a 2))
        (String (table_b2a (N.lor (N.shiftl (N.land a 3) 4) (N.shiftr b 4)))
           (String (table_b2a (N.shiftl (N.land b 15) 2)) "="))
  | a :: b :: c :: rest =>
      String (table_b2a (N.shiftr a 2))
        (String (table_b2a (N.lor (N.shiftl (N.land a 3) 4) (N.shiftr b 4)))
           (String (table_b2a (N.lor (N.shiftl (N.land b 15) 2) (N.shiftr c 6)))
              (String (table_b2a (N.land c 63)) (b2a rest))))
  end.

(** [base64.b64encode(data).decode("utf-8")]. *)
Definition b64encode (data : bytes) : string := b2a (map code_of_byte data).

End Base64.

(* ===================================================================== *)
(** ** The world around the client *)
(* ===================================================================== *)

Module World.
Import Py.

(** The credential object unpickled from the token file.  [expiry] is the
    instant, in seconds, at which the access token expires; [None] is a
    credential that never expires. *)
Record credential := Credential {
  token : option string;
  refresh_token : option string;
  expiry : option Z
}.

(** The margin the credential library takes on the expiry: 3 minutes and
    45 seconds. *)
Definition REFRESH_THRESHOLD : Z := 225.

(** [creds.expired] and [creds.valid] at the instant [now]: the credential
    counts as expired from [REFRESH_THRESHOLD] before its expiry on. *)
Definition expired (c : credential) (now : Z) : bool :=
  match expiry c with
  | None => false
  | Some e => (e - REFRESH_THRESHOLD <=? now)%Z
  end.

Definition valid (c : credential) (now : Z) : bool :=
  match token c with
  | None => false
  | Some _ => negb (expired c now)
  end.

(** What the token file holds: a pickled object ([None] or a credential) or
    bytes that do not unpickle. *)
Inductive file_content :=
| Pickled (obj : option credential)
| Corrupt.

(** A file resource as the service returns it. *)
Record entry := Entry {
  e_id : string;
  e_name : string;
  e_mimeType : string
}.

(** The body of a create or update request ([parents] is absent under the
    root). *)
Record file_body := FileBody {
  body_name : string;
  body_mimeType : option string;
  body_parents : option (list string)
}.

(** [MediaIoBaseUpload(file_stream, mimetype=..., resumable=True)]. *)
Record media := Media {
  media_stream : bytes;
  media_mimetype : string
}.

(** The requests that the code of the client makes: the calls of the drive
    API, the pulls of a download and the refresh of [authenticate]. *)
Inductive request :=
| FilesCreate (body : file_body) (media_body : option media) (fields : string)
| FilesUpdate (fileId : string) (body : file_body) (media_body : media)
              (fields : string)
| FilesList (q : string) (pageSize : option Z) (fields : string)
| FilesGet (fileId : string) (fields : string)
| NextChunk (fileId : string)
| TokenRefresh (c : credential).

(** A download as the chunked transport delivers it: chunks that leave the
    transfer unfinished, then a last chunk that reports completion, or an
    exception that aborts it.  A transfer is finite. *)
Inductive transfer :=
| Done (last : bytes)
| Chunk (b : bytes) (rest : transfer)
| Abort (e : exn).

(** The documents the write path builds before handing them to the library
    that serialises them. *)
Inductive canvas_op :=
| SetFont (psfontname : string) (size : Z)
| DrawString (x y : Z) (text : string).

Record slide := Slide {
  slide_layout : nat;
  title_text : string;
  body_text : string
}.

Inductive document :=
| PdfCanvas (ops : list canvas_op)
| ExcelFrame (rows : list (list string))
| Presentation (slides : list slide)
| WordDocument (paragraphs : list string).

(** The oracles.  An answer of the network may depend on every request made
    before it (the history, newest first). *)
Record environment := Environment {
  files_create : list request -> file_body -> option media -> string ->
                 outcome entry;
  files_update : list request -> string -> file_body -> media -> string ->
                 outcome entry;
  files_list : list request -> string -> option Z -> string ->
               outcome (option (list entry));
  files_get : list request -> string -> string -> outcome entry;
  get_media : list request -> string -> transfer;
  refresh : list request -> credential -> outcome credential;
  serialize : document -> outcome bytes;
  decode_text : string -> bytes -> outcome string;
  pdf_page_texts : bytes -> outcome (list (option string));
  excel_to_csv : bytes -> outcome string;
  pptx_shape_texts : bytes -> outcome (list string)
}.

(** The client object and what it can observe.  [service] is
    [self.service]: [None], or the handle, told by the credential it was
    built from. *)
Record state := State {
  service : option credential;
  token_file : option file_content;
  clock : Z;
  trace : list request
}.

Definition log (r : request) (st : state) : state :=
  State (service st) (token_file st) (clock st) (r :: trace st).

(** *** Computations: state and exceptions *)

Definition M (A : Type) : Type := state -> outcome A * state.

Definition ret {A} (a : A) : M A := fun st => (Ok a, st).

Definition bind {A B} (m : M A) (k : A -> M B) : M B :=
  fun st =>
    match m st with
    | (Ok a, st') => k a st'
    | (Raise e, st') => (Raise e, st')
    end.

Definition lift {A} (o : outcome A) : M A := fun st => (o, st).

(** [try: body except Exception as e: handler(e)]. *)
Definition try_except {A} (body : M A) (handler : exn -> M A) : M A :=
  fun st =>
    match body st with
    | (Ok a, st') => (Ok a, st')
    | (Raise e, st') => handler e st'
    end.

(** A request made by the code of the client: it is recorded, and answered
    from the history before it.  What the transport of the handle does of
    its own accord to carry a request (it renews an access token that has
    expired, and fails when it cannot) is part of the answer, not of the
    trace. *)
Definition call {A} (r : request) (answer : list request -> outcome A) : M A :=
  fun st => (answer (trace st), log r st).

Definition get_service : M (option credential) := fun st => (Ok (service st), st).
Definition get_clock : M Z := fun st => (Ok (clock st), st).

Definition set_service (c : credential) : M unit :=
  fun st => (Ok tt, State (Some c) (token_file st) (clock st) (trace st)).

Definition write_token_file (f : file_content) : M unit :=
  fun st => (Ok tt, State (service st) (Some f) (clock st) (trace st)).

Declare Scope client_scope.
Delimit Scope client_scope with client.
Notation "x <- m ;; k" := (bind m (fun x => k))
  (at level 61, m at next level, right associativity) : client_scope.
Notation "m ;;; k" := (bind m (fun _ => k))
  (at level 61, right associativity) : client_scope.

(** The result of a loop body that may [return]. *)
Inductive flow (R S : Type) : Type :=
| Return (r : R)
| Next (s : S).
Arguments Return {R S} r.
Arguments Next {R S} s.

(** [for x in xs: body], threading the loop variable [s]; a [return] or an
    exception leaves the loop. *)
Fixpoint for_in {X R S} (xs : list X) (body : X -> S -> M (flow R S))
         (s : S) : M (flow R S) :=
  match xs with
  | [] => ret (Next s)
  | x :: rest =>
      bind (body x s) (fun f =>
        match f with
        | Return r => ret (Return r)
        | Next s' => for_in rest body s'
        end)
  end.

(** A computation that never lets an exception out. *)
Definition total {A} (m : M A) : Prop :=
  forall st, exists a st', m st = (Ok a, st').

(** What [try: body except Exception as e: return error(prefix + str(e))]
    makes of the outcome of [body]. *)
Definition enveloped {A} (wrap : string -> A) (body : outcome A * state)
  : outcome A * state :=
  match body with
  | (Ok a, st') => (Ok a, st')
  | (Raise e, st') => (Ok (wrap (exn_str e)), st')
  end.

End World.

(* ===================================================================== *)
(** ** [GoogleDriveAPIClient] *)
(* ===================================================================== *)

Module Client.
Import Py PosixPath Base64 World.
Local Open Scope client_scope.

(** The tagged result of a public operation:
    [{"status": "success", "data": ...}] or
    [{"status": "error", "message": ...}]. *)
Inductive data :=
| DataEntry (e : entry)
| DataFiles (files : list entry)
| DataContent (metadata : entry) (content : string).

Inductive envelope :=
| Success (d : data)
| Error (message : string).

Definition EXTENSION_TO_MIME : list (string * string) :=
  [ (".txt", "text/plain");
    (".csv", "text/csv");
    (".json", "application/json");
    (".pdf", "application/pdf");
    (".jpg", "image/jpeg");
    (".jpeg", "image/jpeg");
    (".png", "image/png");
    (".mp4", "video/mp4");
    (".docx", "application/vnd.openxmlformats-officedocument.wordprocessingml.document");
    (".xlsx", "application/vnd.openxmlformats-officedocument.spreadsheetml.sheet");
    (".pptx", "application/vnd.openxmlformats-officedocument.presentationml.presentation");
    (".py", "text/plain");
    (".ipynb", "application/json") ].

(** [d.get(key, default)] on a dictionary with string keys. *)
Fixpoint dict_get (d : list (string * string)) (key default : string) : string :=
  match d with
  | [] => default
  | (k, v) :: rest => if String.eqb k key then v else dict_get rest key default
  end.

Definition FOLDER_MIME : string := "application/vnd.google-apps.folder".
Definition PDF_MIME : string := "application/pdf".
Definition XLSX_MIME : string :=
  "application/vnd.openxmlformats-officedocument.spreadsheetml.sheet".
Definition PPTX_MIME : string :=
  "application/vnd.openxmlformats-officedocument.presentationml.presentation".
Definition DOCX_MIME : string :=
  "application/vnd.openxmlformats-officedocument.wordprocessingml.document".

(** *** authenticate *)

(** [pickle.load] of the token file. *)
Definition pickle_load (f : file_content) : M (option credential) :=
  match f with
  | Pickled obj => ret obj
  | Corrupt => lift (Raise (Exn "UnpicklingError" "invalid load key"))
  end.

Definition authenticate (env : environment) : M bool :=
  try_except
    (fun st =>
       match token_file st with
       | None => ret false st
       | Some f =>
           (creds <- pickle_load f ;;
            now <- get_clock ;;
            creds <- match creds with
                     | Some c =>
                         if expired c now && truthy_opt (refresh_token c)
                         then
                           c' <- call (TokenRefresh c)
                                      (fun h => refresh env h c) ;;
                           write_token_file (Pickled (Some c')) ;;;
                           ret (Some c')
                         else ret (Some c)
                     | None => ret None
                     end ;;
            match creds with
            | None => ret false
            | Some c =>
                if negb (valid c now) then ret false
                else set_service c ;;; ret true
            end) st
       end)
    (fun e => ret false).

(** *** Content codec helpers *)

Definition file_ext (filename : string) : string :=
  lower (snd (splitext filename)).

Definition _get_mime_type (filename : string) : string :=
  let ext := file_ext filename in
  dict_get EXTENSION_TO_MIME ext "application/octet-stream".

Definition _make_pdf_bytes (env : environment) (text : string) : outcome bytes :=
  serialize env (PdfCanvas [SetFont "Helvetica" 12; DrawString 100 750 text]).

(** *** create_folder, list_directory, navigate_path *)

Definition unauthenticated : envelope := Error "Not authenticated".

(** The [parents] entry of a request body: present when [parent_id] is
    given and is not the root. *)
Definition parents_of (parent_id : option string) : option (list string) :=
  match parent_id with
  | Some p => if truthy p && negb (String.eqb p "root") then Some [p] else None
  | None => None
  end.

Definition create_folder_body (env : environment) (name : string)
           (parent_id : option string) : M envelope :=
  svc <- get_service ;;
  match svc with
  | None => ret unauthenticated
  | Some _ =>
      let folder_metadata :=
        FileBody name (Some FOLDER_MIME) (parents_of parent_id) in
      let fields := "id,name,parents,createdTime,webViewLink" in
      folder <- call (FilesCreate folder_metadata None fields)
                     (fun h => files_create env h folder_metadata None fields) ;;
      ret (Success (DataEntry folder))
  end.

Definition create_folder (env : environment) (name : string)
           (parent_id : option string) : M envelope :=
  try_except (create_folder_body env name parent_id)
    (fun e => ret (Error ("Failed to create folder: " ++ exn_str e))).

(** [results.get("files", [])]. *)
Definition get_files (results : option (list entry)) : list entry :=
  match results with
  | Some files => files
  | None => []
  end.

(** [folder_id or 'root']. *)
Definition or_root (folder_id : option string) : string :=
  match folder_id with
  | Some f => if truthy f then f else "root"
  | None => "root"
  end.

Definition list_directory_body (env : environment) (folder_id : option string)
           (max_results : Z) : M envelope :=
  svc <- get_service ;;
  match svc with
  | None => ret unauthenticated
  | Some _ =>
      let query :=
        "'" ++ or_root folder_id ++ "' in parents and trashed=false" in
      let fields := "files(id,name,mimeType,size,modifiedTime,webViewLink)" in
      results <- call (FilesList query (Some max_results) fields)
                      (fun h => files_list env h query (Some max_results) fields) ;;
      ret (Success (DataFiles (get_files results)))
  end.

Definition list_directory (env : environment) (folder_id : option string)
           (max_results : Z) : M envelope :=
  try_except (list_directory_body env folder_id max_results)
    (fun e => ret (Error ("Failed to list directory: " ++ exn_str e))).

(** The query of one step of the walk: the folders named [part] directly
    under [current_folder_id]. *)
Definition folder_query (current_folder_id part : string) : string :=
  "'" ++ current_folder_id ++ "' in parents and name='" ++ part
      ++ "' and mimeType='application/vnd.google-apps.folder' and trashed=false".

Definition navigate_step (env : environment) (path : string)
           (part current_folder_id : string) : M (flow envelope string) :=
  let query := folder_query current_folder_id part in
  results <- call (FilesList query None "files(id,name)")
                  (fun h => files_list env h query None "files(id,name)") ;;
  let items := get_files results in
  match items with
  | [] => ret (Return (Error ("Path '" ++ path ++ "' not found")))
  | first :: _ => ret (Next (e_id first))
  end.

Definition navigate_path_body (env : environment) (path : string) : M envelope :=
  svc <- get_service ;;
  match svc with
  | None => ret unauthenticated
  | Some _ =>
      if String.eqb path "/" || String.eqb path "" then
        list_directory env (Some "root") 100
      else
        let parts := filter truthy (split "/"%char path) in
        r <- for_in parts (navigate_step env path) "root" ;;
        match r with
        | Return v => ret v
        | Next current_folder_id =>
            list_directory env (Some current_folder_id) 100
        end
  end.

Definition navigate_path (env : environment) (path : string) : M envelope :=
  try_except (navigate_path_body env path)
    (fun e => ret (Error ("Failed to navigate path: " ++ exn_str e))).

(** *** read_file *)

Definition _get_file_id_by_name (env : environment) (name parent_id : string)
  : M (option string) :=
  try_except
    (let query :=
       "'" ++ parent_id ++ "' in parents and name='" ++ name
           ++ "' and trashed=false" in
     results <- call (FilesList query None "files(id,name)")
                     (fun h => files_list env h query None "files(id,name)") ;;
     let files := get_files results in
     match files with
     | [] => ret None
     | first :: _ => ret (Some (e_id first))
     end)
    (fun e => ret None).

(** The pull loop [while not done: _, done = downloader.next_chunk()]:
    every pull is a request; the chunks accumulate in [file_io]. *)
Fixpoint download_loop (fileId : string) (t : transfer) (file_io : bytes)
  : M bytes :=
  match t with
  | Done last =>
      call (NextChunk fileId) (fun _ => Ok (file_io ++ last)%list)
  | Chunk b rest =>
      call (NextChunk fileId) (fun _ => Ok tt) ;;;
      download_loop fileId rest (file_io ++ b)%list
  | Abort e =>
      call (NextChunk fileId) (fun _ => Raise e)
  end.

Definition download (env : environment) (fileId : string) : M bytes :=
  fun st => download_loop fileId (get_media env (trace st) fileId) [] st.

(** [page.extract_text() or ""]. *)
Definition or_empty (t : option string) : string :=
  match t with
  | Some s => s
  | None => ""
  end.

Definition is_in (x : string) (xs : list string) : bool :=
  existsb (String.eqb x) xs.

Definition NEWLINE : string := String (chr 10) EmptyString.

(** The dispatch on the extension of the resolved name (the branches under
    "Handle different formats"). *)
Definition decode_content (env : environment) (ext encoding : string)
           (raw : bytes) : outcome string :=
  if is_in ext [".txt"; ".py"; ".csv"; ".json"; ".ipynb"] then
    decode_text env encoding raw
  else if String.eqb ext ".pdf" then
    match pdf_page_texts env raw with
    | Ok pages => Ok (join NEWLINE (map or_empty pages))
    | Raise e => Raise e
    end
  else if String.eqb ext ".xlsx" then
    excel_to_csv env raw
  else if String.eqb ext ".pptx" then
    match pptx_shape_texts env raw with
    | Ok texts => Ok (join NEWLINE texts)
    | Raise e => Raise e
    end
  else
    Ok (b64encode raw).

(** The part of [read_file] after the identifier is resolved. *)
Definition read_resolved (env : environment) (file_id encoding : string)
  : M envelope :=
  let fields := "id,name,mimeType,size,modifiedTime" in
  metadata <- call (FilesGet file_id fields)
                   (fun h => files_get env h file_id fields) ;;
  raw <- download env file_id ;;
  let filename := e_name metadata in
  let ext := file_ext filename in
  content <- lift (decode_content env ext encoding raw) ;;
  ret (Success (DataContent metadata content)).

(** The input is taken for an identifier when it is longer than 20
    characters and ends in none of the known extensions. *)
Definition looks_like_id (file_name_or_id : string) : bool :=
  (20 <? String.length file_name_or_id)%nat
  && negb (existsb (endswith file_name_or_id) (map fst EXTENSION_TO_MIME)).

Definition read_file_body (env : environment)
           (file_name_or_id encoding parent_id : string) : M envelope :=
  svc <- get_service ;;
  match svc with
  | None => ret unauthenticated
  | Some _ =>
      if looks_like_id file_name_or_id then
        read_resolved env file_name_or_id encoding
      else
        file_id <- _get_file_id_by_name env file_name_or_id parent_id ;;
        match file_id with
        | Some fid =>
            if truthy fid then read_resolved env fid encoding
            else ret (Error ("File '" ++ file_name_or_id ++ "' not found"))
        | None => ret (Error ("File '" ++ file_name_or_id ++ "' not found"))
        end
  end.

Definition read_file (env : environment)
           (file_name_or_id encoding parent_id : string) : M envelope :=
  try_except (read_file_body env file_name_or_id encoding parent_id)
    (fun e => ret (Error ("Failed to read file: " ++ exn_str e))).

(** *** write_file *)

(** The bytes placed in [file_stream], branch by branch on the MIME type. *)
Definition encode_content (env : environment) (mime_type content : string)
  : outcome bytes :=
  if String.eqb mime_type PDF_MIME then
    _make_pdf_bytes env content
  else if String.eqb mime_type XLSX_MIME then
    match b64decode content with
    | Ok file_bytes => Ok file_bytes
    | Raise _ =>
        serialize env
          (ExcelFrame (map (split ","%char) (splitlines content)))
    end
  else if String.eqb mime_type PPTX_MIME then
    match b64decode content with
    | Ok file_bytes => Ok file_bytes
    | Raise _ =>
        serialize env
          (Presentation (map (fun line => Slide 1 "Slide" line)
                             (splitlines content)))
    end
  else if String.eqb mime_type DOCX_MIME then
    match b64decode content with
    | Ok file_bytes => Ok file_bytes
    | Raise _ => serialize env (WordDocument (splitlines content))
    end
  else if startswith mime_type "text/" || String.eqb mime_type "application/json" then
    Ok (encode_utf8 content)
  else
    match b64decode content with
    | Ok file_bytes => Ok file_bytes
    | Raise _ => Ok (encode_utf8 content)
    end.

Definition write_file_body (env : environment) (name content : string)
           (file_id parent_id : option string) : M envelope :=
  svc <- get_service ;;
  match svc with
  | None => ret unauthenticated
  | Some _ =>
      let mime_type := _get_mime_type name in
      file_stream <- lift (encode_content env mime_type content) ;;
      let media := Media file_stream mime_type in
      if truthy_opt file_id then
        let fid := match file_id with Some f => f | None => "" end in
        let body := FileBody name None None in
        let fields := "id,name,size,modifiedTime,webViewLink" in
        updated <- call (FilesUpdate fid body media fields)
                        (fun h => files_update env h fid body media fields) ;;
        ret (Success (DataEntry updated))
      else
        let metadata := FileBody name None (parents_of parent_id) in
        let fields := "id,name,size,createdTime,webViewLink,parents" in
        created <- call (FilesCreate metadata (Some media) fields)
                        (fun h => files_create env h metadata (Some media) fields) ;;
        ret (Success (DataEntry created))
  end.

Definition write_file (env : environment) (name content : string)
           (file_id parent_id : option string) : M envelope :=
  try_except (write_file_body env name content file_id parent_id)
    (fun e => ret (Error ("Failed to write file: " ++ exn_str e))).

End Client.

(* ===================================================================== *)
(** ** The path walk in the words of the specification *)
(* ===================================================================== *)

Module PathResolver.
Import Py World Client.

(** Where a walk over the segments of a path ends. *)
Inductive walk_end :=
| Reached (folder_id : string)
| NotFound
| Failed (e : exn).

(** The lookup of one segment, in the query language of the drive: the
    entries that have [current] among their parents, bear the name
    [segment], are folders and are not in the bin. *)
Definition child_folder_query (current segment : string) : string :=
  "'" ++ current ++ "' in parents and name='" ++ segment
      ++ "' and mimeType='application/vnd.google-apps.folder' and trashed=false".

(** Starting at [current], for each segment look up the folders of that
    name under the current folder; with no match the walk ends not found;
    otherwise it goes down into the first match. *)
Fixpoint resolve_path (env : environment) (segments : list string)
         (current : string) (st : state) : walk_end * state :=
  match segments with
  | [] => (Reached current, st)
  | segment :: rest =>
      let lookup :=
        FilesList (child_folder_query current segment) None "files(id,name)" in
      match files_list env (trace st) (child_folder_query current segment) None
                       "files(id,name)" with
      | Raise e => (Failed e, log lookup st)
      | Ok results =>
          match get_files results with
          | [] => (NotFound, log lookup st)
          | first :: _ => resolve_path env rest (e_id first) (log lookup st)
          end
      end
  end.

End PathResolver.

(* ===================================================================== *)
(** ** A small world to run the client in *)
(* ===================================================================== *)

Module Scenario.
Import Py World Client.

Definition refresh_rejected : exn :=
  Exn "RefreshError" "invalid_grant: Token has been expired or revoked.".
Definition no_library : exn := Exn "ValueError" "not a document".

Definition folder_A : entry := Entry "idA" "A" FOLDER_MIME.
Definition report : entry := Entry "idR" "Report.DOCX" DOCX_MIME.

(** A drive whose root holds the folder A, which holds one word-processing
    document; every other folder lookup finds nothing. *)
Definition answer_list (h : list request) (q : string) (pageSize : option Z)
           (fields : string) : outcome (option (list entry)) :=
  if String.eqb q "'root' in parents and name='A' and mimeType='application/vnd.google-apps.folder' and trashed=false"
  then Ok (Some [folder_A])
  else if String.eqb q "'idA' in parents and trashed=false" then Ok (Some [report])
  else if String.eqb q "'root' in parents and name='Report.DOCX' and trashed=false"
       then Ok (Some [report])
  else Ok None.

Definition drive : environment :=
  Environment
    (fun _ body _ _ => Ok (Entry "idN" (body_name body) ""))
    (fun _ fid body _ _ => Ok (Entry fid (body_name body) ""))
    answer_list
    (fun _ _ _ => Ok report)
    (fun _ _ => Chunk ["P"%byte] (Done ["K"%byte]))
    (fun _ _ => Raise refresh_rejected)
    (fun _ => Raise no_library)
    (fun _ _ => Raise no_library)
    (fun _ => Raise no_library)
    (fun _ => Raise no_library)
    (fun _ => Raise no_library).

Definition fresh : credential := Credential (Some "ya29.a0") None (Some 2000%Z).
Definition stale : credential := Credential (Some "ya29.a0") None (Some 500%Z).
Definition closing : credential := Credential (Some "ya29.a0") None (Some 1100%Z).
Definition revoked : credential :=
  Credential (Some "ya29.a0") (Some "1//0g") (Some 500%Z).

(** A client that has not authenticated, with [c] in its token file, at
    the instant 1000. *)
Definition logged_out (c : credential) : state :=
  State None (Some (Pickled (Some c))) 1000 [].

(** A client with a bound session. *)
Definition logged_in : state :=
  State (Some fresh) (Some (Pickled (Some fresh))) 1000 [].

End Scenario.

(* ===================================================================== *)
(** ** Observations on transfers, requests and paths *)
(* ===================================================================== *)

Module Observe.
Import Py World Client.

(** The character codes of a string. *)
Fixpoint codes (s : string) : list N :=
  match s with
  | EmptyString => []
  | String c r => ord c :: codes r
  end.

(** What a transfer delivers in the end: all its chunks in order, or the
    exception that aborts it. *)
Fixpoint transfer_bytes (t : transfer) : outcome bytes :=
  match t with
  | Done last => Ok last
  | Chunk b rest =>
      match transfer_bytes rest with
      | Ok more => Ok (b ++ more)%list
      | Raise e => Raise e
      end
  | Abort e => Raise e
  end.

(** The number of pulls a transfer takes (the pull that aborts counts). *)
Fixpoint pulls (t : transfer) : nat :=
  match t with
  | Done _ => 1
  | Chunk _ rest => S (pulls rest)
  | Abort _ => 1
  end.

(** The requests that only read from the drive, and those that write. *)
Definition is_read (r : request) : bool :=
  match r with
  | FilesList _ _ _ | FilesGet _ _ | NextChunk _ => true
  | _ => false
  end.

Definition is_upload (r : request) : bool :=
  match r with
  | FilesCreate _ _ _ | FilesUpdate _ _ _ _ => true
  | _ => false
  end.

(** A computation that changes nothing of the client but the trace, to
    which it adds requests of the kind [allowed] only. *)
Definition only_requests {A} (allowed : request -> bool) (m : M A) : Prop :=
  forall st,
    service (snd (m st)) = service st /\
    token_file (snd (m st)) = token_file st /\
    clock (snd (m st)) = clock st /\
    exists new,
      trace (snd (m st)) = (new ++ trace st)%list /\
      forallb allowed new = true.

(** A computation that makes at most [budget] requests. *)
Definition at_most {A} (budget : nat) (m : M A) : Prop :=
  forall st,
    (List.length (trace (snd (m st))) <= budget + List.length (trace st))%nat.

Definition is_list (r : request) : bool :=
  match r with
  | FilesList _ _ _ => true
  | _ => false
  end.

(** A computation that leaves the token file as it is and adds to the trace
    no request of the kind [kind]. *)
Definition makes_no {A} (kind : request -> bool) (m : M A) : Prop :=
  forall st,
    token_file (snd (m st)) = token_file st /\
    exists new,
      trace (snd (m st)) = (new ++ trace st)%list /\
      forallb (fun r => negb (kind r)) new = true.

(** A computation that makes at most [budget] list requests. *)
Definition lists_at_most {A} (budget : nat) (m : M A) : Prop :=
  forall st,
    exists new,
      trace (snd (m st)) = (new ++ trace st)%list /\
      (List.length (filter is_list new) <= budget)%nat.

(** A path made of slashes only. *)
Fixpoint only_slashes (path : string) : bool :=
  match path with
  | EmptyString => true
  | String c r => Ascii.eqb c "/"%char && only_slashes r
  end.

(** The last character of a string. *)
Fixpoint last_char (s : string) : option ascii :=
  match s with
  | EmptyString => None
  | String c r =>
      match r with
      | EmptyString => Some c
      | String _ _ => last_char r
      end
  end.

(** The number of characters of the base64 alphabet among some codes. *)
Fixpoint alphabet_count (data : list N) : nat :=
  match data with
  | [] => 0
  | n :: rest =>
      match Base64.table_a2b n with
      | Some _ => S (alphabet_count rest)
      | None => alphabet_count rest
      end
  end.

(** A string of ASCII characters without the pad character. *)
Definition unpadded_ascii (s : string) : bool :=
  forallb (fun n => (n <? 128)%N && negb (n =? 61)%N) (codes s).

(** The answers of the drive to a read: the input resolves to [file_id]
    (it is taken for an identifier, or the lookup by name finds a file with
    that identifier), the metadata [metadata] are fetched and the download
    completes with the bytes [raw], which leaves the client in [st2]. *)
Definition fetches (env : environment) (file_name_or_id parent_id : string)
           (st : state) (file_id : string) (metadata : entry) (raw : bytes)
           (st2 : state) : Prop :=
  exists st1,
    ((looks_like_id file_name_or_id = true /\
      file_id = file_name_or_id /\ st1 = st) \/
     (looks_like_id file_name_or_id = false /\
      _get_file_id_by_name env file_name_or_id parent_id st
      = (Ok (Some file_id), st1) /\
      truthy file_id = true)) /\
    files_get env (trace st1) file_id "id,name,mimeType,size,modifiedTime"
    = Ok metadata /\
    download env file_id
             (log (FilesGet file_id "id,name,mimeType,size,modifiedTime") st1)
    = (Ok raw, st2).

(** The envelope is not the refusal of an unauthenticated client. *)
Definition accepted (r : outcome envelope) : Prop :=
  exists v, r = Ok v /\ v <> unauthenticated.

End Observe.

(* ===================================================================== *)
(** ** [auth_setup.py]: accounts and the first authorisation *)
(* ===================================================================== *)

Module AuthSetup.
Import Py World Client.

(** [users.json]: the bcrypt hash of the password of each user id. *)
Definition users_db := list (string * string).

Fixpoint lookup (users : users_db) (user_id : string) : option string :=
  match users with
  | [] => None
  | (k, v) :: rest => if String.eqb k user_id then Some v else lookup rest user_id
  end.

(** The site as one request sees it: the users file, the token file of the
    user the request is about, the clock, the requests made to the network
    and the number of times the interactive consent flow was run. *)
Record site := Site {
  users_file : option users_db;
  user_token_file : option file_content;
  site_clock : Z;
  site_trace : list request;
  consents : nat
}.

(** The collaborators: the drive and token endpoint, the password hashing
    library and the consent flow ([InstalledAppFlow] with
    [run_local_server]), whose answer may depend on the runs and requests
    before it. *)
Record collaborators := Collaborators {
  drive_env : environment;
  bcrypt_hash : string -> string;
  bcrypt_verify : string -> string -> bool;
  run_local_server : nat -> list request -> outcome credential
}.

Definition load_users (s : site) : users_db :=
  match users_file s with
  | Some users => users
  | None => []
  end.

Definition save_users (users : users_db) (s : site) : site :=
  Site (Some users) (user_token_file s) (site_clock s) (site_trace s) (consents s).

Definition dump_token (c : credential) (s : site) : site :=
  Site (users_file s) (Some (Pickled (Some c))) (site_clock s) (site_trace s)
       (consents s).

Definition log_refresh (c : credential) (s : site) : site :=
  Site (users_file s) (user_token_file s) (site_clock s)
       (TokenRefresh c :: site_trace s) (consents s).

Definition count_consent (s : site) : site :=
  Site (users_file s) (user_token_file s) (site_clock s) (site_trace s)
       (S (consents s)).

(** [creds = None], then [pickle.load] when the token file exists. *)
Definition load_token (s : site) : outcome (option credential) :=
  match user_token_file s with
  | None => Ok None
  | Some (Pickled obj) => Ok obj
  | Some Corrupt => Raise (Exn "UnpicklingError" "invalid load key")
  end.

(** [not creds or not creds.valid]. *)
Definition needs_authorisation (creds : option credential) (now : Z) : bool :=
  match creds with
  | None => true
  | Some c => negb (valid c now)
  end.

(** [authenticate_google(user_id)]: nothing is caught, so an exception of
    the refresh, of the consent flow or of [pickle.load] leaves the
    function. *)
Definition authenticate_google (E : collaborators) (s : site)
  : outcome bool * site :=
  match load_token s with
  | Raise e => (Raise e, s)
  | Ok creds =>
      if needs_authorisation creds (site_clock s) then
        match creds with
        | Some c =>
            if expired c (site_clock s) && truthy_opt (refresh_token c) then
              match refresh (drive_env E) (site_trace s) c with
              | Ok c' => (Ok true, dump_token c' (log_refresh c s))
              | Raise e => (Raise e, log_refresh c s)
              end
            else
              match run_local_server E (consents s) (site_trace s) with
              | Ok c' => (Ok true, dump_token c' (count_consent s))
              | Raise e => (Raise e, count_consent s)
              end
        | None =>
            match run_local_server E (consents s) (site_trace s) with
            | Ok c' => (Ok true, dump_token c' (count_consent s))
            | Raise e => (Raise e, count_consent s)
            end
        end
      else (Ok true, s)
  end.

(** What the [/auth] endpoint answers: one of its three messages, an
    [HTTPException] with its status code (401 for an invalid password, 500
    for a token error), or an exception of [authenticate_google]. *)
Inductive answer :=
| Created (user_id : string)
| Reauthenticated (user_id : string)
| LoggedIn (user_id : string)
| HTTPException (status_code : Z)
| Propagated (e : exn).

(** A new [GoogleDriveAPIClient] for the user of the request. *)
Definition new_client (s : site) : state :=
  State None (user_token_file s) (site_clock s) (site_trace s).

(** The site once the client has run. *)
Definition after_client (st : state) (s : site) : site :=
  Site (users_file s) (token_file st) (site_clock s) (trace st) (consents s).

(** [password[:72]]. *)
Definition first_72 (password : string) : string := substring 0 72 password.

Definition auth (E : collaborators) (user_id password : string) (s : site)
  : answer * site :=
  let users := load_users s in
  match lookup users user_id with
  | None =>
      let hashed_pw := bcrypt_hash E (first_72 password) in
      let s1 := save_users (users ++ [(user_id, hashed_pw)])%list s in
      match authenticate_google E s1 with
      | (Ok _, s2) => (Created user_id, s2)
      | (Raise e, s2) => (Propagated e, s2)
      end
  | Some stored =>
      if negb (bcrypt_verify E (first_72 password) stored) then
        (HTTPException 401, s)
      else
        match user_token_file s with
        | None =>
            match authenticate_google E s with
            | (Ok _, s2) => (Reauthenticated user_id, s2)
            | (Raise e, s2) => (Propagated e, s2)
            end
        | Some _ =>
            match authenticate (drive_env E) (new_client s) with
            | (Ok true, st) => (LoggedIn user_id, after_client st s)
            | (_, st) => (HTTPException 500, after_client st s)
            end
        end
  end.

End AuthSetup.

(* ===================================================================== *)
(** ** [gdrive_mcp_server.py]: login and the tools *)
(* ===================================================================== *)

Module Server.
Import Py World Client AuthSetup.

(** The characters [str.strip()] removes, among the code points below 256. *)
Definition is_space (c : ascii) : bool :=
  let n := ord c in
  ((9 <=? n) && (n <=? 13) || (28 <=? n) && (n <=? 32)
   || (n =? 133) || (n =? 160))%N.

Fixpoint lstrip (s : string) : string :=
  match s with
  | EmptyString => EmptyString
  | String c r => if is_space c then lstrip r else s
  end.

(** The string without its trailing white space. *)
Fixpoint rstrip (s : string) : string :=
  match s with
  | EmptyString => EmptyString
  | String c r =>
      match rstrip r with
      | EmptyString => if is_space c then EmptyString else String c EmptyString
      | String d t => String c (String d t)
      end
  end.

Definition strip (s : string) : string := rstrip (lstrip s).

(** [login_user()], with what is typed at its two prompts.  It answers
    with the client when the login succeeds. *)
Definition login_user (E : collaborators) (typed_user typed_password : string)
           (s : site) : option state * site :=
  let users := load_users s in
  match users with
  | [] => (None, s)
  | _ :: _ =>
      let user_id := strip typed_user in
      match lookup users user_id with
      | None => (None, s)
      | Some stored =>
          let password := first_72 (strip typed_password) in
          if negb (bcrypt_verify E password stored) then (None, s)
          else
            match authenticate (drive_env E) (new_client s) with
            | (Ok true, st) => (Some st, after_client st s)
            | (_, st) => (None, after_client st s)
            end
      end
  end.

(** A call of one of the five tools, with its arguments (the defaults are
    "root" for [folder_id] and [parent_id], 100 for [max_results], "utf-8"
    for [encoding] and [None] for [file_id]). *)
Inductive tool_call :=
| ListDirectory (folder_id : string) (max_results : Z)
| CreateFolder (name parent_id : string)
| NavigatePath (path : string)
| ReadFile (file_name_or_id encoding parent_id : string)
| WriteFile (name content : string) (file_id : option string) (parent_id : string).

Definition run_tool (env : environment) (c : tool_call) : M envelope :=
  match c with
  | ListDirectory folder_id max_results =>
      list_directory env (Some folder_id) max_results
  | CreateFolder name parent_id => create_folder env name (Some parent_id)
  | NavigatePath path => navigate_path env path
  | ReadFile file_name_or_id encoding parent_id =>
      read_file env file_name_or_id encoding parent_id
  | WriteFile name content file_id parent_id =>
      write_file env name content file_id (Some parent_id)
  end.

(** The tool calls of a session, served one after the other by the one
    client of the process. *)
Fixpoint serve (env : environment) (calls : list tool_call) (st : state)
  : list (outcome envelope) * state :=
  match calls with
  | [] => ([], st)
  | c :: rest =>
      let (r, st1) := run_tool env c st in
      let (rs, st2) := serve env rest st1 in
      (r :: rs, st2)
  end.

End Server.

(* ===================================================================== *)
(** ** A second small world: a site with one account *)
(* ===================================================================== *)

Module Desk.
Import Py World Client AuthSetup.

(** A token endpoint that renews every credential until the instant 5000. *)
Definition renewed (c : credential) : credential :=
  Credential (Some "ya29.b1") (refresh_token c) (Some 5000%Z).

Definition renewing : environment :=
  Environment
    (files_create Scenario.drive)
    (files_update Scenario.drive)
    (files_list Scenario.drive)
    (files_get Scenario.drive)
    (fun _ _ => Chunk ["P"%byte] (Abort (Exn "HttpError" "503 backend error")))
    (fun _ c => Ok (renewed c))
    (serialize Scenario.drive)
    (decode_text Scenario.drive)
    (pdf_page_texts Scenario.drive)
    (excel_to_csv Scenario.drive)
    (pptx_shape_texts Scenario.drive).

(** A drive whose root holds one text file, of two bytes, and a text
    decoder that knows these two bytes. *)
Definition notes : entry := Entry "idT" "NOTES.TXT" "text/plain".

Definition shelf : environment :=
  Environment
    (files_create Scenario.drive)
    (files_update Scenario.drive)
    (fun _ q _ _ =>
       if String.eqb q "'root' in parents and name='NOTES.TXT' and trashed=false"
       then Ok (Some [notes]) else Ok None)
    (fun _ _ _ => Ok notes)
    (fun _ _ => Done ["h"%byte; "i"%byte])
    (refresh Scenario.drive)
    (serialize Scenario.drive)
    (fun _ raw => match raw with
                  | ["h"%byte; "i"%byte] => Ok "hi"
                  | _ => Raise (Exn "UnicodeDecodeError" "invalid start byte")
                  end)
    (pdf_page_texts Scenario.drive)
    (excel_to_csv Scenario.drive)
    (pptx_shape_texts Scenario.drive).

(** A drive whose root holds one picture, of two bytes. *)
Definition photo : entry := Entry "idP" "holiday.PNG" "image/png".

Definition gallery : environment :=
  Environment
    (files_create Scenario.drive)
    (files_update Scenario.drive)
    (fun _ q _ _ =>
       if String.eqb q "'root' in parents and name='holiday.PNG' and trashed=false"
       then Ok (Some [photo]) else Ok None)
    (fun _ _ _ => Ok photo)
    (get_media Scenario.drive)
    (refresh Scenario.drive)
    (serialize Scenario.drive)
    (decode_text Scenario.drive)
    (pdf_page_texts Scenario.drive)
    (excel_to_csv Scenario.drive)
    (pptx_shape_texts Scenario.drive).

(** A drive that is down. *)
Definition down : exn := Exn "HttpError" "503 backend error".

Definition offline : environment :=
  Environment
    (fun _ _ _ _ => Raise down)
    (fun _ _ _ _ _ => Raise down)
    (fun _ _ _ _ => Raise down)
    (fun _ _ _ => Raise down)
    (fun _ _ => Abort down)
    (fun _ _ => Raise down)
    (serialize Scenario.drive)
    (decode_text Scenario.drive)
    (pdf_page_texts Scenario.drive)
    (excel_to_csv Scenario.drive)
    (pptx_shape_texts Scenario.drive).

Definition toy_hash (password : string) : string := "$2b$12$" ++ password.

Definition consent_refused : exn :=
  Exn "AccessDeniedError" "access_denied".

(** Collaborators whose consent flow yields a fresh credential, and
    collaborators whose consent flow is refused. *)
Definition granting : collaborators :=
  Collaborators Scenario.drive toy_hash
                (fun password stored => String.eqb (toy_hash password) stored)
                (fun _ _ => Ok Scenario.fresh).

Definition refusing : collaborators :=
  Collaborators Scenario.drive toy_hash
                (fun password stored => String.eqb (toy_hash password) stored)
                (fun _ _ => Raise consent_refused).

(** A site where ana is registered and holds the token [f]. *)
Definition with_ana (f : option file_content) : site :=
  Site (Some [("ana", toy_hash "s3cret")]) f 1000 [] 0.

(** A site without any account. *)
Definition empty_site : site := Site None None 1000 [] 0.

End Desk.

(* ===================================================================== *)
(** ** Properties *)
(* ===================================================================== *)

Import Py PosixPath Base64 World Client PathResolver.
Local Open Scope client_scope.

(** *** The library primitives on sample inputs *)

Example b64decode_skips_foreign_characters :
  b64decode "QU JD" = Ok ["A"%byte; "B"%byte; "C"%byte] /\
  b64decode "QUI=" = Ok ["A"%byte; "B"%byte] /\
  b64decode "QQ==QUJD" = Ok ["A"%byte].
Proof. repeat split. Qed.

Example b64decode_rejects_open_quads :
  b64decode "Q3 Summary"
  = Raise (Exn "binascii.Error"
               "Invalid base64-encoded string: number of data characters (9) cannot be 1 more than a multiple of 4") /\
  b64decode ("hello" ++ NEWLINE ++ "world") = Raise padding_error /\
  b64decode "QUI" = Raise padding_error.
Proof. repeat split. Qed.

Example b64encode_pads :
  b64encode ["A"%byte; "B"%byte; "C"%byte] = "QUJD" /\
  b64encode ["A"%byte; "B"%byte] = "QUI=" /\
  b64encode ["A"%byte] = "QQ==".
Proof. repeat split. Qed.

Example splitext_samples :
  splitext "notes.txt" = ("notes", ".txt") /\
  splitext ".bashrc" = (".bashrc", "") /\
  splitext "a.b/c" = ("a.b/c", "") /\
  splitext "x/..y.z" = ("x/..y", ".z") /\
  splitext "archive.tar.GZ" = ("archive.tar", ".GZ").
Proof. repeat split. Qed.

Example split_and_splitlines_samples :
  split "/"%char "a//b/" = ["a"; ""; "b"; ""] /\
  split "/"%char "" = [""] /\
  splitlines ("a" ++ NEWLINE ++ NEWLINE ++ "b" ++ NEWLINE) = ["a"; ""; "b"] /\
  splitlines "" = [].
Proof. repeat split. Qed.

(** *** Running computations *)

Lemma try_except_ok {A} (body : M A) (handler : exn -> M A) st a st' :
  body st = (Ok a, st') -> try_except body handler st = (Ok a, st').
Proof. intros H. unfold try_except. rewrite H. reflexivity. Qed.

Lemma guarded_total (body : M envelope) (prefix : string) :
  total (try_except body (fun e => ret (Error (prefix ++ exn_str e)))).
Proof.
  intros st. unfold try_except.
  destruct (body st) as [[a | e] st']; eauto.
  unfold ret. eauto.
Qed.

Lemma list_directory_total env folder_id max_results :
  total (list_directory env folder_id max_results).
Proof. apply guarded_total. Qed.

Lemma guarded_enveloped (body : M envelope) (prefix : string) st :
  try_except body (fun e => ret (Error (prefix ++ exn_str e))) st
  = enveloped (fun msg => Error (prefix ++ msg)) (body st).
Proof.
  unfold try_except, enveloped. destruct (body st) as [[a | e] st']; reflexivity.
Qed.

(** *** Calls without a session *)

Lemma unbound_create_folder env name parent_id st :
  service st = None ->
  create_folder env name parent_id st = (Ok unauthenticated, st).
Proof.
  intros H. unfold create_folder, create_folder_body, try_except, bind, get_service.
  rewrite H. reflexivity.
Qed.

Lemma unbound_list_directory env folder_id max_results st :
  service st = None ->
  list_directory env folder_id max_results st = (Ok unauthenticated, st).
Proof.
  intros H. unfold list_directory, list_directory_body, try_except, bind, get_service.
  rewrite H. reflexivity.
Qed.

Lemma unbound_navigate_path env path st :
  service st = None ->
  navigate_path env path st = (Ok unauthenticated, st).
Proof.
  intros H. unfold navigate_path, navigate_path_body, try_except, bind, get_service.
  rewrite H. reflexivity.
Qed.

Lemma unbound_read_file env file_name_or_id encoding parent_id st :
  service st = None ->
  read_file env file_name_or_id encoding parent_id st = (Ok unauthenticated, st).
Proof.
  intros H. unfold read_file, read_file_body, try_except, bind, get_service.
  rewrite H. reflexivity.
Qed.

Lemma unbound_write_file env name content file_id parent_id st :
  service st = None ->
  write_file env name content file_id parent_id st = (Ok unauthenticated, st).
Proof.
  intros H. unfold write_file, write_file_body, try_except, bind, get_service.
  rewrite H. reflexivity.
Qed.

(** C8.  When no session is bound, each of the five public operations
    returns the error envelope with the message "Not authenticated", and
    the state, with its trace of requests, is the one before the call: no
    request went to the network. *)
Theorem unauthenticated_calls_are_refused :
  forall env st,
    service st = None ->
    (forall name parent_id,
        create_folder env name parent_id st
        = (Ok (Error "Not authenticated"), st)) /\
    (forall folder_id max_results,
        list_directory env folder_id max_results st
        = (Ok (Error "Not authenticated"), st)) /\
    (forall path,
        navigate_path env path st = (Ok (Error "Not authenticated"), st)) /\
    (forall file_name_or_id encoding parent_id,
        read_file env file_name_or_id encoding parent_id st
        = (Ok (Error "Not authenticated"), st)) /\
    (forall name content file_id parent_id,
        write_file env name content file_id parent_id st
        = (Ok (Error "Not authenticated"), st)).
Proof.
  intros env st H. repeat split; intros.
  - now apply unbound_create_folder.
  - now apply unbound_list_directory.
  - now apply unbound_navigate_path.
  - now apply unbound_read_file.
  - now apply unbound_write_file.
Qed.

Lemma unauthenticated_calls_witness :
  service (Scenario.logged_out Scenario.fresh) = None /\
  navigate_path Scenario.drive "A" (Scenario.logged_out Scenario.fresh)
  = (Ok (Error "Not authenticated"), Scenario.logged_out Scenario.fresh).
Proof.
  split; [reflexivity |].
  apply (unauthenticated_calls_are_refused Scenario.drive
           (Scenario.logged_out Scenario.fresh) eq_refl).
Defined.

(** *** The root path *)

(** C6.  On any state, [navigate_path("/")] and [navigate_path("")] give
    the result of [list_directory("root")], and leave the same state. *)
Theorem navigate_root_is_list_root :
  forall env st,
    navigate_path env "/" st = list_directory env (Some "root") 100 st /\
    navigate_path env "" st = list_directory env (Some "root") 100 st.
Proof.
  intros env st.
  destruct (service st) as [h |] eqn:Hs.
  - destruct (list_directory_total env (Some "root") 100%Z st) as (r & st' & Hl).
    split; unfold navigate_path, navigate_path_body;
      (erewrite try_except_ok; [symmetry; exact Hl |]);
      unfold bind, get_service; rewrite Hs; simpl; exact Hl.
  - rewrite (unbound_list_directory env _ _ st Hs).
    split; now apply unbound_navigate_path.
Qed.

(** *** No exception crosses the public interface *)

(** C7.  Each of the five public operations ends with an envelope, never
    with an exception: it returns what its body returns, and when a remote
    call or a codec call in the body raises, it returns the error envelope
    whose message is the operation's own prefix followed by the text of
    the exception. *)
Theorem public_operations_return_envelopes :
  forall env st,
    (forall name parent_id,
        (exists r st', create_folder env name parent_id st = (Ok r, st')) /\
        create_folder env name parent_id st
        = enveloped (fun msg => Error ("Failed to create folder: " ++ msg))
                    (create_folder_body env name parent_id st)) /\
    (forall folder_id max_results,
        (exists r st', list_directory env folder_id max_results st = (Ok r, st')) /\
        list_directory env folder_id max_results st
        = enveloped (fun msg => Error ("Failed to list directory: " ++ msg))
                    (list_directory_body env folder_id max_results st)) /\
    (forall path,
        (exists r st', navigate_path env path st = (Ok r, st')) /\
        navigate_path env path st
        = enveloped (fun msg => Error ("Failed to navigate path: " ++ msg))
                    (navigate_path_body env path st)) /\
    (forall file_name_or_id encoding parent_id,
        (exists r st',
            read_file env file_name_or_id encoding parent_id st = (Ok r, st')) /\
        read_file env file_name_or_id encoding parent_id st
        = enveloped (fun msg => Error ("Failed to read file: " ++ msg))
                    (read_file_body env file_name_or_id encoding parent_id st)) /\
    (forall name content file_id parent_id,
        (exists r st',
            write_file env name content file_id parent_id st = (Ok r, st')) /\
        write_file env name content file_id parent_id st
        = enveloped (fun msg => Error ("Failed to write file: " ++ msg))
                    (write_file_body env name content file_id parent_id st)).
Proof.
  intros env st.
  repeat split; intros;
    solve [ apply guarded_total | apply guarded_enveloped ].
Qed.

(** *** The walk of navigate_path *)

Lemma for_in_navigate env path segments :
  forall current st,
    for_in segments (navigate_step env path) current st
    = match resolve_path env segments current st with
      | (Reached folder_id, st') => (Ok (Next folder_id), st')
      | (NotFound, st') =>
          (Ok (Return (Error ("Path '" ++ path ++ "' not found"))), st')
      | (Failed e, st') => (Raise e, st')
      end.
Proof.
  induction segments as [| segment rest IH]; intros current st.
  - reflexivity.
  - cbn [for_in resolve_path].
    unfold bind at 1. unfold navigate_step at 1. unfold bind at 1, call at 1.
    change (folder_query current segment)
      with (child_folder_query current segment).
    destruct (files_list env (trace st) (child_folder_query current segment)
                         None "files(id,name)") as [results | e].
    + destruct (get_files results) as [| first others].
      * reflexivity.
      * cbn. apply IH.
    + reflexivity.
Qed.



(** *** authenticate *)

Lemma authenticate_run env st c :
  token_file st = Some (Pickled (Some c)) ->
  expired c (clock st) && truthy_opt (refresh_token c) = false ->
  authenticate env st
  = if valid c (clock st)
    then (Ok true, State (Some c) (token_file st) (clock st) (trace st))
    else (Ok false, st).
Proof.
  intros Hf Hr. unfold authenticate, try_except. rewrite Hf.
  unfold bind, pickle_load, ret, get_clock, set_service. rewrite Hr.
  destruct (valid c (clock st)); cbn; rewrite ?Hf; reflexivity.
Qed.

Lemma authenticate_refresh_rejected env st c e :
  token_file st = Some (Pickled (Some c)) ->
  expired c (clock st) && truthy_opt (refresh_token c) = true ->
  refresh env (trace st) c = Raise e ->
  authenticate env st = (Ok false, log (TokenRefresh c) st).
Proof.
  intros Hf Hr He. unfold authenticate, try_except. rewrite Hf.
  unfold bind, pickle_load, ret, get_clock, call. rewrite Hr, He.
  reflexivity.
Qed.

(** C4 as stated does not hold: a credential with an access token whose
    expiry lies after the current instant, but less than the margin of the
    library after it, counts as expired; without refresh token
    [authenticate] returns false. *)
Lemma authenticate_inside_the_margin_counterexample :
  (token Scenario.closing = Some "ya29.a0" /\
   expiry Scenario.closing = Some 1100%Z /\
   (clock (Scenario.logged_out Scenario.closing) < 1100)%Z /\
   authenticate Scenario.drive (Scenario.logged_out Scenario.closing)
   = (Ok false, Scenario.logged_out Scenario.closing)) /\
  ~ (forall env st c access_token e,
        token_file st = Some (Pickled (Some c)) ->
        token c = Some access_token ->
        expiry c = Some e ->
        (clock st < e)%Z ->
        fst (authenticate env st) = Ok true).
Proof.
  split.
  - repeat split.
  - intros H.
    specialize (H Scenario.drive (Scenario.logged_out Scenario.closing)
                  Scenario.closing "ya29.a0" 1100%Z eq_refl eq_refl eq_refl
                  eq_refl).
    discriminate H.
Qed.

(** C4, amended.  With a credential in the token file whose access token
    is present and whose expiry lies more than the margin of the library
    (225 seconds) after the current instant, [authenticate] returns true
    and binds the session to that credential; the trace of requests is the
    one before the call, so the refresh was not invoked, and the token file
    is the one before the call. *)
Theorem authenticate_valid_credential :
  forall env st c access_token e,
    token_file st = Some (Pickled (Some c)) ->
    token c = Some access_token ->
    expiry c = Some e ->
    (clock st < e - REFRESH_THRESHOLD)%Z ->
    authenticate env st
    = (Ok true, State (Some c) (token_file st) (clock st) (trace st)).
Proof.
  intros env st c access_token e Hf Ht He Hlt.
  assert (Hx : expired c (clock st) = false).
  { unfold expired. rewrite He. apply Z.leb_gt. exact Hlt. }
  rewrite (authenticate_run env st c Hf).
  - unfold valid. rewrite Ht, Hx. reflexivity.
  - rewrite Hx. reflexivity.
Qed.

Lemma authenticate_valid_credential_witness :
  authenticate Scenario.drive (Scenario.logged_out Scenario.fresh)
  = (Ok true,
     State (Some Scenario.fresh) (Some (Pickled (Some Scenario.fresh))) 1000 []).
Proof.
  apply (authenticate_valid_credential Scenario.drive
           (Scenario.logged_out Scenario.fresh) Scenario.fresh "ya29.a0" 2000%Z);
    [reflexivity | reflexivity | reflexivity | vm_compute; reflexivity].
Defined.

(** C3 as stated does not hold: a credential without refresh token whose
    access token has not expired authenticates. *)
Lemma authenticate_no_refresh_token_counterexample :
  (refresh_token Scenario.fresh = None /\
   authenticate Scenario.drive (Scenario.logged_out Scenario.fresh)
   = (Ok true,
      State (Some Scenario.fresh) (Some (Pickled (Some Scenario.fresh))) 1000 [])) /\
  ~ (forall env st c,
        token_file st = Some (Pickled (Some c)) ->
        refresh_token c = None ->
        fst (authenticate env st) = Ok false).
Proof.
  split; [split; reflexivity |].
  intros H.
  specialize (H Scenario.drive (Scenario.logged_out Scenario.fresh)
                Scenario.fresh eq_refl eq_refl).
  discriminate H.
Qed.

(** C3, amended.  With a credential in the token file that is not valid at
    the current instant (expired, or without access token) and has no
    refresh token, or that is expired and whose refresh the authorization
    service rejects, [authenticate] returns false without raising; the
    token file and the session of the client are the ones before the
    call. *)
Theorem authenticate_unrefreshable_credential :
  forall env st c,
    token_file st = Some (Pickled (Some c)) ->
    (valid c (clock st) = false /\ truthy_opt (refresh_token c) = false) \/
    (expired c (clock st) = true /\ truthy_opt (refresh_token c) = true /\
     exists e, refresh env (trace st) c = Raise e) ->
    fst (authenticate env st) = Ok false /\
    token_file (snd (authenticate env st)) = token_file st /\
    service (snd (authenticate env st)) = service st.
Proof.
  intros env st c Hf [[Hv Hr] | (Hx & Hr & e & He)].
  - rewrite (authenticate_run env st c Hf).
    + rewrite Hv. repeat split.
    + rewrite Hr. apply andb_false_r.
  - rewrite (authenticate_refresh_rejected env st c e Hf); [| | exact He].
    + repeat split.
    + rewrite Hx, Hr. reflexivity.
Qed.

Lemma authenticate_unrefreshable_credential_witness :
  (fst (authenticate Scenario.drive (Scenario.logged_out Scenario.stale)) = Ok false /\
   token_file (snd (authenticate Scenario.drive (Scenario.logged_out Scenario.stale)))
   = Some (Pickled (Some Scenario.stale)) /\
   service (snd (authenticate Scenario.drive (Scenario.logged_out Scenario.stale)))
   = None) /\
  (fst (authenticate Scenario.drive (Scenario.logged_out Scenario.revoked)) = Ok false /\
   token_file (snd (authenticate Scenario.drive (Scenario.logged_out Scenario.revoked)))
   = Some (Pickled (Some Scenario.revoked)) /\
   service (snd (authenticate Scenario.drive (Scenario.logged_out Scenario.revoked)))
   = None).
Proof.
  split.
  - apply (authenticate_unrefreshable_credential Scenario.drive
             (Scenario.logged_out Scenario.stale) Scenario.stale eq_refl).
    left. split; reflexivity.
  - apply (authenticate_unrefreshable_credential Scenario.drive
             (Scenario.logged_out Scenario.revoked) Scenario.revoked eq_refl).
    right. repeat split. exists Scenario.refresh_rejected. reflexivity.
Defined.

(** *** The codec *)

Lemma get_mime_type_of_ext filename :
  _get_mime_type filename
  = dict_get EXTENSION_TO_MIME (file_ext filename) "application/octet-stream".
Proof. reflexivity. Qed.

Lemma read_resolved_run env file_id encoding st metadata raw st' :
  files_get env (trace st) file_id "id,name,mimeType,size,modifiedTime"
  = Ok metadata ->
  download env file_id (log (FilesGet file_id "id,name,mimeType,size,modifiedTime") st)
  = (Ok raw, st') ->
  read_resolved env file_id encoding st
  = match decode_content env (file_ext (e_name metadata)) encoding raw with
    | Ok content => (Ok (Success (DataContent metadata content)), st')
    | Raise e => (Raise e, st')
    end.
Proof.
  intros Hm Hd. unfold read_resolved.
  unfold bind at 1, call at 1. rewrite Hm.
  unfold bind at 1. rewrite Hd.
  unfold bind, lift, ret.
  destruct (decode_content env (file_ext (e_name metadata)) encoding raw);
    reflexivity.
Qed.

(** C9.  When the name of the file that [read_file] resolves ends in
    [.docx] (in any letter case), the content returned is the base64 text
    of the bytes downloaded: the dispatch of the read path has no branch for
    word-processing documents.  The write path has one: content that is not
    base64 is written as a document of one paragraph per line. *)
Theorem read_docx_returns_base64 :
  forall env file_name_or_id encoding parent_id st h st1 file_id metadata raw st2,
    service st = Some h ->
    (looks_like_id file_name_or_id = true /\
     file_id = file_name_or_id /\ st1 = st) \/
    (looks_like_id file_name_or_id = false /\
     _get_file_id_by_name env file_name_or_id parent_id st
     = (Ok (Some file_id), st1) /\
     truthy file_id = true) ->
    files_get env (trace st1) file_id "id,name,mimeType,size,modifiedTime"
    = Ok metadata ->
    download env file_id
             (log (FilesGet file_id "id,name,mimeType,size,modifiedTime") st1)
    = (Ok raw, st2) ->
    file_ext (e_name metadata) = ".docx" ->
    read_file env file_name_or_id encoding parent_id st
    = (Ok (Success (DataContent metadata (b64encode raw))), st2) /\
    (forall content e,
        b64decode content = Raise e ->
        encode_content env (_get_mime_type (e_name metadata)) content
        = serialize env (WordDocument (splitlines content))).
Proof.
  intros env file_name_or_id encoding parent_id st h st1 file_id metadata raw st2
         Hs Hres Hm Hd Hext.
  split.
  - unfold read_file. rewrite guarded_enveloped. unfold read_file_body.
    unfold bind at 1, get_service at 1. rewrite Hs.
    destruct Hres as [(Hid & -> & ->) | (Hid & Hn & Ht)]; rewrite Hid.
    + rewrite (read_resolved_run env _ encoding st metadata raw st2 Hm Hd).
      rewrite Hext. reflexivity.
    + unfold bind at 1. rewrite Hn. rewrite Ht.
      rewrite (read_resolved_run env _ encoding st1 metadata raw st2 Hm Hd).
      rewrite Hext. reflexivity.
  - intros content e Hb. rewrite get_mime_type_of_ext, Hext.
    unfold encode_content. cbn -[b64decode splitlines]. rewrite Hb. reflexivity.
Qed.

Lemma read_docx_returns_base64_witness :
  read_file Scenario.drive "Report.DOCX" "utf-8" "root" Scenario.logged_in
  = (Ok (Success (DataContent Scenario.report "UEs=")),
     State (Some Scenario.fresh) (Some (Pickled (Some Scenario.fresh))) 1000
           [ NextChunk "idR"; NextChunk "idR";
             FilesGet "idR" "id,name,mimeType,size,modifiedTime";
             FilesList "'root' in parents and name='Report.DOCX' and trashed=false"
                       None "files(id,name)" ]).
Proof.
  refine (proj1 (read_docx_returns_base64 Scenario.drive "Report.DOCX" "utf-8"
                   "root" Scenario.logged_in Scenario.fresh _ "idR"
                   Scenario.report ["P"%byte; "K"%byte] _ eq_refl _ _ _ _)).
  - right. repeat split; reflexivity.
  - reflexivity.
  - reflexivity.
  - reflexivity.
Defined.

Lemma lower_char_marks c :
  Ascii.eqb (lower_char c) "."%char = Ascii.eqb c "."%char /\
  Ascii.eqb (lower_char c) "/"%char = Ascii.eqb c "/"%char.
Proof.
  destruct c as [[] [] [] [] [] [] [] []]; vm_compute; split; reflexivity.
Qed.

Lemma marks_lower s : marks (lower s) = marks s.
Proof.
  induction s as [| c r IH]; cbn; [reflexivity |].
  destruct (lower_char_marks c) as [-> ->]. rewrite IH. reflexivity.
Qed.

Lemma marks_app s t : marks (s ++ t) = (marks s ++ marks t)%list.
Proof. induction s as [| c r IH]; cbn; [reflexivity | now rewrite IH]. Qed.

Lemma marks_length s : List.length (marks s) = String.length s.
Proof. induction s as [| c r IH]; cbn; [reflexivity | now rewrite IH]. Qed.

Lemma rfind_from_marks c s : forall t i found,
  c = "."%char \/ c = "/"%char ->
  marks s = marks t ->
  rfind_from c s i found = rfind_from c t i found.
Proof.
  induction s as [| d r IH]; intros [| d' r'] i found Hc Hm; cbn in *;
    try discriminate; [reflexivity |].
  injection Hm as Hd Hs Hr.
  replace (Ascii.eqb d' c) with (Ascii.eqb d c).
  - now apply IH.
  - destruct Hc as [-> | ->]; assumption.
Qed.

Lemma get_marks s : forall t i,
  marks s = marks t ->
  option_map (fun c => Ascii.eqb c "."%char) (String.get i s)
  = option_map (fun c => Ascii.eqb c "."%char) (String.get i t).
Proof.
  induction s as [| d r IH]; intros [| d' r'] i Hm; cbn in *;
    try discriminate; [reflexivity |].
  injection Hm as Hd Hs Hr.
  destruct i as [| i]; cbn.
  - now rewrite Hd.
  - now apply IH.
Qed.

Lemma has_non_dot_marks s t n : forall i,
  marks s = marks t -> has_non_dot s i n = has_non_dot t i n.
Proof.
  induction n as [| n IH]; intros i Hm; cbn; [reflexivity |].
  pose proof (get_marks s t i Hm) as Hg.
  destruct (String.get i s) as [c |], (String.get i t) as [c' |];
    cbn in Hg; try discriminate; [| reflexivity].
  injection Hg as Hg. rewrite Hg.
  destruct (Ascii.eqb c' "."%char); cbn; [now apply IH | reflexivity].
Qed.

Lemma substring_prefix_app a b :
  substring 0 (String.length a) (a ++ b) = a.
Proof. induction a as [| c r IH]; cbn; [now destruct b | now rewrite IH]. Qed.

Lemma substring_suffix_app a b :
  substring (String.length a) (String.length b) (a ++ b) = b.
Proof.
  induction a as [| c r IH]; cbn; [| exact IH].
  induction b as [| c r IH]; cbn; [reflexivity | now rewrite IH].
Qed.

Lemma substring_0_length k : forall p,
  String.length (substring 0 k p) = Nat.min k (String.length p).
Proof.
  induction k as [| k IH]; intros [| c r]; cbn; try reflexivity.
  now rewrite IH.
Qed.

Lemma substring_beyond p : forall k,
  (String.length p <= k)%nat -> substring k (String.length p - k) p = "".
Proof.
  induction p as [| c r IH]; intros [| k] H; cbn in *; try reflexivity; try lia.
  apply IH. lia.
Qed.

Lemma app_length_string a b :
  String.length (a ++ b) = (String.length a + String.length b)%nat.
Proof. induction a as [| c r IH]; cbn; [reflexivity | now rewrite IH]. Qed.

Lemma lower_empty s : lower s = "" -> s = "".
Proof. destruct s; [reflexivity | discriminate]. Qed.

(** Changing the letter case of the extension of a name changes neither
    where the name is split nor its root. *)
Lemma splitext_recase root ext ext' :
  splitext (root ++ ext) = (root, ext) ->
  lower ext' = lower ext ->
  splitext (root ++ ext') = (root, ext').
Proof.
  intros Hs Hl.
  destruct ext as [| c r].
  { apply lower_empty in Hl. subst ext'. exact Hs. }
  assert (Hm : marks (root ++ String c r) = marks (root ++ ext')).
  { rewrite !marks_app. f_equal.
    rewrite <- (marks_lower (String c r)), <- (marks_lower ext'), Hl.
    reflexivity. }
  assert (Hlen : String.length ext' = String.length (String c r)).
  { rewrite <- !marks_length, <- (marks_lower ext'), Hl, marks_lower.
    reflexivity. }
  unfold splitext in *. unfold rfind in *.
  rewrite <- (rfind_from_marks "/"%char _ _ 0%Z (-1)%Z (or_intror eq_refl) Hm).
  rewrite <- (rfind_from_marks "."%char _ _ 0%Z (-1)%Z (or_introl eq_refl) Hm).
  rewrite <- (has_non_dot_marks _ _ _ _ Hm).
  set (sepIndex := rfind_from "/"%char (root ++ String c r) 0 (-1)) in *.
  set (dotIndex := rfind_from "."%char (root ++ String c r) 0 (-1)) in *.
  destruct (sepIndex <? dotIndex)%Z.
  2:{ injection Hs as Hs _.
      apply (f_equal String.length) in Hs.
      rewrite app_length_string in Hs. cbn in Hs. lia. }
  destruct (has_non_dot _ _ _).
  2:{ injection Hs as Hs _.
      apply (f_equal String.length) in Hs.
      rewrite app_length_string in Hs. cbn in Hs. lia. }
  injection Hs as Hroot Hext.
  unfold slice_to, slice_from in *.
  set (k := Z.to_nat dotIndex) in *.
  assert (Hk : k = String.length root).
  { destruct (Nat.le_gt_cases (String.length (root ++ String c r)) k) as [Hge | Hlt].
    - rewrite (substring_beyond _ _ Hge) in Hext. discriminate.
    - pose proof (substring_0_length k (root ++ String c r)) as Hl0.
      rewrite Hroot in Hl0. lia. }
  rewrite Hk. rewrite substring_prefix_app.
  rewrite app_length_string.
  replace (String.length root + String.length ext' - String.length root)%nat
    with (String.length ext') by lia.
  rewrite substring_suffix_app. reflexivity.
Qed.

Lemma substring_split p : forall k,
  substring 0 k p ++ substring k (String.length p - k) p = p.
Proof.
  induction p as [| c r IH]; intros [| k]; cbn; try reflexivity.
  - f_equal. clear IH.
    induction r as [| d r IH]; cbn; [reflexivity | now rewrite IH].
  - f_equal. apply IH.
Qed.

Lemma splitext_join p : fst (splitext p) ++ snd (splitext p) = p.
Proof.
  unfold splitext.
  destruct (_ <? _)%Z; [destruct (has_non_dot _ _ _) |]; cbn.
  - apply substring_split.
  - clear. induction p as [| c r IH]; cbn; [reflexivity | now rewrite IH].
  - clear. induction p as [| c r IH]; cbn; [reflexivity | now rewrite IH].
Qed.

Lemma read_file_fetched env file_name_or_id encoding parent_id st h file_id
      metadata raw st2 :
  service st = Some h ->
  Observe.fetches env file_name_or_id parent_id st file_id metadata raw st2 ->
  read_file env file_name_or_id encoding parent_id st
  = (match decode_content env (file_ext (e_name metadata)) encoding raw with
     | Ok content => Ok (Success (DataContent metadata content))
     | Raise e => Ok (Error ("Failed to read file: " ++ exn_str e))
     end, st2).
Proof.
  intros Hs (st1 & Hres & Hm & Hd).
  unfold read_file. rewrite guarded_enveloped. unfold read_file_body.
  unfold bind at 1, get_service at 1. rewrite Hs.
  destruct Hres as [(Hid & -> & ->) | (Hid & Hn & Ht)]; rewrite Hid.
  - rewrite (read_resolved_run env _ encoding st metadata raw st2 Hm Hd).
    destruct (decode_content env _ encoding raw); reflexivity.
  - unfold bind at 1. rewrite Hn. rewrite Ht.
    rewrite (read_resolved_run env _ encoding st1 metadata raw st2 Hm Hd).
    destruct (decode_content env _ encoding raw); reflexivity.
Qed.

Lemma write_file_create env name content parent_id st h :
  service st = Some h ->
  write_file env name content None parent_id st
  = match encode_content env (_get_mime_type name) content with
    | Raise e => (Ok (Error ("Failed to write file: " ++ exn_str e)), st)
    | Ok payload =>
        let body := FileBody name None (parents_of parent_id) in
        let media := Some (Media payload (_get_mime_type name)) in
        let fields := "id,name,size,createdTime,webViewLink,parents" in
        (match files_create env (trace st) body media fields with
         | Ok created => Ok (Success (DataEntry created))
         | Raise e => Ok (Error ("Failed to write file: " ++ exn_str e))
         end,
         log (FilesCreate body media fields) st)
    end.
Proof.
  intros Hs. unfold write_file. rewrite guarded_enveloped.
  unfold write_file_body, bind, get_service, lift, call. rewrite Hs.
  destruct (encode_content env (_get_mime_type name) content) as [payload | e];
    [| reflexivity].
  cbn [truthy_opt]. cbv zeta.
  destruct (files_create env (trace st) _ _ _); reflexivity.
Qed.

(** C10.  The kind of a file is found from the lowercased extension of its
    name, on the write path and in the dispatch of the read path alike.
    For two names whose extensions agree up to letter case, and in
    particular for a name and the same name with the letters of its
    extension in another case: [write_file] under the first name encodes
    the content as the kind that the table gives for the lowercased
    extension of the second, and sends it with that MIME type; and
    [read_file] of a file that bears the first name decodes the downloaded
    bytes as the dispatch does for the lowercased extension of the second. *)
Theorem extension_case_is_ignored :
  forall name1 name2,
    lower (snd (splitext name1)) = lower (snd (splitext name2)) \/
    (exists ext2,
        name2 = fst (splitext name1) ++ ext2 /\
        lower ext2 = lower (snd (splitext name1))) ->
    (forall env content parent_id st h,
        service st = Some h ->
        write_file env name1 content None parent_id st
        = let kind := dict_get EXTENSION_TO_MIME (lower (snd (splitext name2)))
                               "application/octet-stream" in
          match encode_content env kind content with
          | Raise e => (Ok (Error ("Failed to write file: " ++ exn_str e)), st)
          | Ok payload =>
              let body := FileBody name1 None (parents_of parent_id) in
              let media := Some (Media payload kind) in
              let fields := "id,name,size,createdTime,webViewLink,parents" in
              (match files_create env (trace st) body media fields with
               | Ok created => Ok (Success (DataEntry created))
               | Raise e => Ok (Error ("Failed to write file: " ++ exn_str e))
               end,
               log (FilesCreate body media fields) st)
          end) /\
    (forall env file_name_or_id encoding parent_id st h file_id metadata raw st2,
        service st = Some h ->
        Observe.fetches env file_name_or_id parent_id st file_id metadata raw st2 ->
        e_name metadata = name1 ->
        read_file env file_name_or_id encoding parent_id st
        = (match decode_content env (lower (snd (splitext name2))) encoding raw with
           | Ok content => Ok (Success (DataContent metadata content))
           | Raise e => Ok (Error ("Failed to read file: " ++ exn_str e))
           end, st2)).
Proof.
  intros name1 name2 H.
  assert (He : file_ext name1 = lower (snd (splitext name2))).
  { destruct H as [H | (ext2 & -> & Hl)]; [exact H |].
    unfold file_ext.
    rewrite (splitext_recase (fst (splitext name1)) (snd (splitext name1)) ext2).
    - symmetry. exact Hl.
    - rewrite splitext_join. apply surjective_pairing.
    - exact Hl. }
  split.
  - intros env content parent_id st h Hs.
    rewrite (write_file_create env name1 content parent_id st h Hs).
    rewrite get_mime_type_of_ext, He. reflexivity.
  - intros env file_name_or_id encoding parent_id st h file_id metadata raw st2
           Hs Hf Hn.
    rewrite (read_file_fetched env file_name_or_id encoding parent_id st h
               file_id metadata raw st2 Hs Hf).
    rewrite Hn, He. reflexivity.
Qed.

Lemma extension_case_is_ignored_witness :
  read_file Desk.shelf "NOTES.TXT" "utf-8" "root" Scenario.logged_in
  = (Ok (Success (DataContent Desk.notes "hi")),
     State (Some Scenario.fresh) (Some (Pickled (Some Scenario.fresh))) 1000
           [ NextChunk "idT";
             FilesGet "idT" "id,name,mimeType,size,modifiedTime";
             FilesList "'root' in parents and name='NOTES.TXT' and trashed=false"
                       None "files(id,name)" ]) /\
  write_file Scenario.drive "Q3/Report.DocX" "QUJD" None None Scenario.logged_in
  = (Ok (Success (DataEntry (Entry "idN" "Q3/Report.DocX" ""))),
     State (Some Scenario.fresh) (Some (Pickled (Some Scenario.fresh))) 1000
           [ FilesCreate (FileBody "Q3/Report.DocX" None None)
                         (Some (Media ["A"%byte; "B"%byte; "C"%byte] DOCX_MIME))
                         "id,name,size,createdTime,webViewLink,parents" ]).
Proof.
  split.
  - refine (proj2 (extension_case_is_ignored "NOTES.TXT" "notes.txt"
                     (or_introl eq_refl))
                  Desk.shelf "NOTES.TXT" "utf-8" "root" Scenario.logged_in
                  Scenario.fresh "idT" Desk.notes ["h"%byte; "i"%byte] _
                  eq_refl _ eq_refl).
    eexists. split; [right; repeat split; reflexivity |].
    split; reflexivity.
  - refine (proj1 (extension_case_is_ignored "Q3/Report.DocX" "Q3/Report.docx" _)
                  Scenario.drive "QUJD" None Scenario.logged_in Scenario.fresh
                  eq_refl).
    right. exists ".docx". split; reflexivity.
Defined.

(** *** The write path and base64 *)

Lemma encode_pdf env content :
  encode_content env PDF_MIME content
  = serialize env (PdfCanvas [SetFont "Helvetica" 12; DrawString 100 750 content]).
Proof. reflexivity. Qed.

(** For the spreadsheet, presentation and word-processing kinds, content
    that base64-decodes is uploaded as the decoded bytes. *)
Lemma encode_office_passthrough env mime_type content file_bytes :
  mime_type = XLSX_MIME \/ mime_type = PPTX_MIME \/ mime_type = DOCX_MIME ->
  b64decode content = Ok file_bytes ->
  encode_content env mime_type content = Ok file_bytes.
Proof.
  intros [-> | [-> | ->]] Hb; unfold encode_content;
    cbn -[b64decode splitlines]; rewrite Hb; reflexivity.
Qed.

(** For the same kinds, content that does not decode is turned into a
    document built from its lines. *)
Lemma encode_office_synthesis env content e :
  b64decode content = Raise e ->
  encode_content env XLSX_MIME content
  = serialize env (ExcelFrame (map (split ","%char) (splitlines content))) /\
  encode_content env PPTX_MIME content
  = serialize env (Presentation (map (fun line => Slide 1 "Slide" line)
                                     (splitlines content))) /\
  encode_content env DOCX_MIME content
  = serialize env (WordDocument (splitlines content)).
Proof.
  intros Hb. unfold encode_content.
  repeat split; cbn -[b64decode splitlines]; rewrite Hb; reflexivity.
Qed.

(** C1 at [write_file("report.pdf", "QUJD")].  The content is the base64
    text of the bytes "ABC"; under the name [report.docx] these bytes are
    the payload, under the name [report.pdf] the payload is a page that
    draws the text "QUJD": the PDF branch does not try base64. *)
Theorem write_pdf_does_not_try_base64 :
  forall env,
    b64decode "QUJD" = Ok ["A"%byte; "B"%byte; "C"%byte] /\
    encode_content env (_get_mime_type "report.docx") "QUJD"
    = Ok ["A"%byte; "B"%byte; "C"%byte] /\
    encode_content env (_get_mime_type "report.pdf") "QUJD"
    = serialize env
        (PdfCanvas [SetFont "Helvetica" 12; DrawString 100 750 "QUJD"]).
Proof.
  intros env. repeat split.
Qed.

(** C2 at [write_file("data.xlsx", "a,b\n1,2")].  The lenient base64
    decoder skips the comma and the newline and decodes "ab12", so the
    three bytes 69 BD 76 are uploaded as the spreadsheet; the rows
    [["a","b"],["1","2"]] that the fallback would have written are never
    built (the serialiser of this world would have raised). *)
Theorem write_xlsx_csv_text_is_taken_for_base64 :
  let content := "a,b" ++ NEWLINE ++ "1,2" in
  map (split ","%char) (splitlines content) = [["a"; "b"]; ["1"; "2"]] /\
  b64decode content = Ok [x69; xbd; x76] /\
  (forall env,
      encode_content env (_get_mime_type "data.xlsx") content
      = Ok [x69; xbd; x76]) /\
  write_file Scenario.drive "data.xlsx" content None None Scenario.logged_in
  = (Ok (Success (DataEntry (Entry "idN" "data.xlsx" ""))),
     State (Some Scenario.fresh) (Some (Pickled (Some Scenario.fresh))) 1000
           [ FilesCreate (FileBody "data.xlsx" None None)
                         (Some (Media [x69; xbd; x76] XLSX_MIME))
                         "id,name,size,createdTime,webViewLink,parents" ]).
Proof.
  cbv zeta. repeat split.
Qed.

(* ===================================================================== *)
(** ** Further properties of the client *)
(* ===================================================================== *)

Import Observe.

(** *** Base64: decoding inverts encoding *)

Lemma ord_chr n : (n < 256)%N -> ord (chr n) = n.
Proof. intros H. unfold ord, chr. apply N_ascii_embedding. exact H. Qed.

Lemma code_of_byte_bounded b : (code_of_byte b < 256)%N.
Proof. unfold code_of_byte. apply N_ascii_bounded. Qed.

Lemma byte_of_code_of_byte b : byte_of_code (code_of_byte b) = b.
Proof.
  unfold byte_of_code, code_of_byte.
  rewrite ascii_N_embedding. apply byte_of_ascii_of_byte.
Qed.

Lemma code_of_byte_of_code n : (n < 256)%N -> code_of_byte (byte_of_code n) = n.
Proof.
  intros H. unfold byte_of_code, code_of_byte.
  rewrite ascii_of_byte_of_ascii. apply N_ascii_embedding. exact H.
Qed.

Lemma below_enumerated k n :
  (n < N.of_nat k)%N -> In n (map N.of_nat (seq 0 k)).
Proof.
  intros H. apply in_map_iff. exists (N.to_nat n). split.
  - apply N2Nat.id.
  - apply in_seq. lia.
Qed.

Lemma forall_below (P : N -> bool) k :
  forallb P (map N.of_nat (seq 0 k)) = true ->
  forall n, (n < N.of_nat k)%N -> P n = true.
Proof.
  intros H n Hn. rewrite forallb_forall in H. apply H.
  apply below_enumerated. exact Hn.
Qed.

Lemma forall_below2 (P : N -> N -> bool) k :
  forallb (fun a => forallb (P a) (map N.of_nat (seq 0 k)))
          (map N.of_nat (seq 0 k)) = true ->
  forall a b, (a < N.of_nat k)%N -> (b < N.of_nat k)%N -> P a b = true.
Proof.
  intros H a b Ha Hb.
  apply (forall_below (P a) k); [| exact Hb].
  apply (forall_below (fun a => forallb (P a) (map N.of_nat (seq 0 k))) k H a Ha).
Qed.

Lemma sextet_table v :
  (v < 64)%N ->
  table_a2b (ord (table_b2a v)) = Some v /\
  (ord (table_b2a v) =? 61)%N = false /\
  (ord (table_b2a v) <? 128)%N = true.
Proof.
  intros H.
  pose proof (forall_below
    (fun v => match table_a2b (ord (table_b2a v)) with
              | Some w => (w =? v)%N
              | None => false
              end
              && negb (ord (table_b2a v) =? 61)%N
              && (ord (table_b2a v) <? 128)%N) 64) as E.
  specialize (E ltac:(vm_compute; reflexivity) v H). cbv beta in E.
  apply andb_true_iff in E as [E E3]. apply andb_true_iff in E as [E1 E2].
  destruct (table_a2b (ord (table_b2a v))) as [w |]; [| discriminate].
  apply N.eqb_eq in E1. subst w.
  apply negb_true_iff in E2. auto.
Qed.

Lemma sextets_of_pair a b :
  (a < 256)%N -> (b < 256)%N ->
  let s1 := N.shiftr a 2 in
  let s2 := N.lor (N.shiftl (N.land a 3) 4) (N.shiftr b 4) in
  let s3z := N.shiftl (N.land b 15) 2 in
  (s1 < 64)%N /\ (s2 < 64)%N /\ (s3z < 64)%N /\
  N.lor (N.shiftl s1 2) (N.shiftr s2 4) = a /\
  N.lor (N.shiftl (N.land s2 15) 4) (N.shiftr s3z 2) = b.
Proof.
  intros Ha Hb.
  pose proof (forall_below2
    (fun a b =>
       let s1 := N.shiftr a 2 in
       let s2 := N.lor (N.shiftl (N.land a 3) 4) (N.shiftr b 4) in
       let s3z := N.shiftl (N.land b 15) 2 in
       (s1 <? 64)%N && (s2 <? 64)%N && (s3z <? 64)%N
       && (N.lor (N.shiftl s1 2) (N.shiftr s2 4) =? a)%N
       && (N.lor (N.shiftl (N.land s2 15) 4) (N.shiftr s3z 2) =? b)%N) 256) as E.
  specialize (E ltac:(vm_compute; reflexivity) a b Ha Hb). cbv beta zeta in E.
  repeat (apply andb_true_iff in E as [E ?]).
  cbv zeta.
  repeat match goal with
         | H : (_ <? _)%N = true |- _ => apply N.ltb_lt in H
         | H : (_ =? _)%N = true |- _ => apply N.eqb_eq in H
         end.
  repeat split; assumption.
Qed.

Lemma sextets_of_tail b c :
  (b < 256)%N -> (c < 256)%N ->
  let s3 := N.lor (N.shiftl (N.land b 15) 2) (N.shiftr c 6) in
  let s4 := N.land c 63 in
  (s3 < 64)%N /\ (s4 < 64)%N /\
  N.shiftr s3 2 = N.shiftr (N.shiftl (N.land b 15) 2) 2 /\
  N.lor (N.shiftl (N.land s3 3) 6) s4 = c.
Proof.
  intros Hb Hc.
  pose proof (forall_below2
    (fun b c =>
       let s3 := N.lor (N.shiftl (N.land b 15) 2) (N.shiftr c 6) in
       let s4 := N.land c 63 in
       (s3 <? 64)%N && (s4 <? 64)%N
       && (N.shiftr s3 2 =? N.shiftr (N.shiftl (N.land b 15) 2) 2)%N
       && (N.lor (N.shiftl (N.land s3 3) 6) s4 =? c)%N) 256) as E.
  specialize (E ltac:(vm_compute; reflexivity) b c Hb Hc). cbv beta zeta in E.
  repeat (apply andb_true_iff in E as [E ?]).
  cbv zeta.
  repeat match goal with
         | H : (_ <? _)%N = true |- _ => apply N.ltb_lt in H
         | H : (_ =? _)%N = true |- _ => apply N.eqb_eq in H
         end.
  repeat split; assumption.
Qed.

(** One step of the decoder on a character of the alphabet. *)
Lemma a2b_step v rest quad_pos leftchar pads out :
  (v < 64)%N ->
  a2b_loop (ord (table_b2a v) :: rest) quad_pos leftchar pads out
  = if (quad_pos =? 0)%N then a2b_loop rest 1 v 0 out
    else if (quad_pos =? 1)%N then
      a2b_loop rest 2 (N.land v 15) 0
               (N.lor (N.shiftl leftchar 2) (N.shiftr v 4) :: out)
    else if (quad_pos =? 2)%N then
      a2b_loop rest 3 (N.land v 3) 0
               (N.lor (N.shiftl leftchar 4) (N.shiftr v 2) :: out)
    else a2b_loop rest 0 0 0 (N.lor (N.shiftl leftchar 6) v :: out).
Proof.
  intros H. destruct (sextet_table v H) as (Ht & Hp & _).
  cbn [a2b_loop]. rewrite Hp, Ht. reflexivity.
Qed.

Lemma a2b_b2a : forall n data out,
  (List.length data <= n)%nat ->
  Forall (fun a => (a < 256)%N) data ->
  a2b_loop (codes (b2a data)) 0 0 0 out = Ok (rev out ++ data)%list.
Proof.
  induction n as [| n IH]; intros data out Hn Hd.
  - destruct data; [| cbn in Hn; lia]. cbn. now rewrite app_nil_r.
  - destruct data as [| a [| b [| c rest]]].
    + cbn. now rewrite app_nil_r.
    + inversion Hd as [| ? ? Ha _]; subst.
      destruct (sextets_of_pair a 0 Ha ltac:(lia)) as (H1 & H2 & _ & E1 & _).
      change (N.shiftr 0 4) with 0%N in H2, E1. rewrite N.lor_0_r in H2, E1.
      cbn [b2a codes].
      rewrite (a2b_step _ _ _ _ _ _ H1). cbn [N.eqb].
      rewrite (a2b_step _ _ _ _ _ _ H2). cbn [N.eqb Pos.eqb].
      rewrite E1. cbn. rewrite <- ?app_assoc. reflexivity.
    + inversion Hd as [| ? ? Ha Hd']; subst.
      inversion Hd' as [| ? ? Hb _]; subst.
      destruct (sextets_of_pair a b Ha Hb) as (H1 & H2 & H3 & E1 & E2).
      cbn [b2a codes].
      rewrite (a2b_step _ _ _ _ _ _ H1). cbn [N.eqb].
      rewrite (a2b_step _ _ _ _ _ _ H2). cbn [N.eqb Pos.eqb].
      rewrite (a2b_step _ _ _ _ _ _ H3). cbn [N.eqb Pos.eqb].
      rewrite E1, E2. cbn. rewrite <- ?app_assoc. reflexivity.
    + inversion Hd as [| ? ? Ha Hd']; subst.
      inversion Hd' as [| ? ? Hb Hd'']; subst.
      inversion Hd'' as [| ? ? Hc Hr]; subst.
      destruct (sextets_of_pair a b Ha Hb) as (H1 & H2 & _ & E1 & E2).
      destruct (sextets_of_tail b c Hb Hc) as (H3 & H4 & E3 & E4).
      cbn [b2a codes].
      rewrite (a2b_step _ _ _ _ _ _ H1). cbn [N.eqb].
      rewrite (a2b_step _ _ _ _ _ _ H2). cbn [N.eqb Pos.eqb].
      rewrite (a2b_step _ _ _ _ _ _ H3). cbn [N.eqb Pos.eqb].
      rewrite (a2b_step _ _ _ _ _ _ H4). cbn [N.eqb Pos.eqb].
      rewrite E1, E3, E2, E4.
      rewrite IH; [| cbn in Hn; lia | exact Hr].
      cbn. rewrite <- ?app_assoc. reflexivity.
Qed.

Lemma table_b2a_ascii v : (ord (table_b2a v) < 128)%N.
Proof.
  destruct (N.lt_ge_cases v 64) as [H | H].
  - apply N.ltb_lt. apply (sextet_table v H).
  - unfold table_b2a.
    destruct (N.ltb_spec v 26); [lia |].
    destruct (N.ltb_spec v 52); [lia |].
    destruct (N.ltb_spec v 62); [lia |].
    destruct (N.eqb_spec v 62); [lia |].
    vm_compute. reflexivity.
Qed.

Lemma encode_ascii_codes s :
  Forall (fun n => (n < 128)%N) (codes s) ->
  encode_ascii s = Some (map byte_of_code (codes s)).
Proof.
  induction s as [| c r IH]; intros H; cbn in *; [reflexivity |].
  inversion H as [| ? ? Hc Hr]; subst.
  apply N.ltb_lt in Hc. rewrite Hc, (IH Hr). reflexivity.
Qed.

Lemma codes_bounded s : Forall (fun n => (n < 256)%N) (codes s).
Proof.
  induction s as [| c r IH]; cbn; constructor; [| exact IH].
  unfold ord. apply N_ascii_bounded.
Qed.

Lemma map_code_of_byte_of_code l :
  Forall (fun n => (n < 256)%N) l -> map code_of_byte (map byte_of_code l) = l.
Proof.
  induction 1 as [| n l Hn _ IH]; cbn; [reflexivity |].
  rewrite code_of_byte_of_code by exact Hn. now rewrite IH.
Qed.

Lemma map_byte_of_code_of_byte bs : map byte_of_code (map code_of_byte bs) = bs.
Proof.
  induction bs as [| b r IH]; cbn; [reflexivity |].
  now rewrite byte_of_code_of_byte, IH.
Qed.

Lemma b2a_ascii : forall n data,
  (List.length data <= n)%nat ->
  Forall (fun n => (n < 128)%N) (codes (b2a data)).
Proof.
  induction n as [| n IH]; intros data Hn.
  - destruct data; [constructor | cbn in Hn; lia].
  - destruct data as [| a [| b [| c rest]]]; cbn [b2a codes].
    + constructor.
    + repeat (constructor; [first [apply table_b2a_ascii | vm_compute; reflexivity] |]).
      constructor.
    + repeat (constructor; [first [apply table_b2a_ascii | vm_compute; reflexivity] |]).
      constructor.
    + repeat (constructor; [apply table_b2a_ascii |]).
      apply IH. cbn in Hn. lia.
Qed.

Lemma b64_round_trip bs : b64decode (b64encode bs) = Ok bs.
Proof.
  unfold b64decode, b64encode.
  rewrite (encode_ascii_codes _ (b2a_ascii _ _ (Nat.le_refl _))).
  rewrite (map_code_of_byte_of_code _ (codes_bounded _)).
  rewrite (a2b_b2a _ _ [] (Nat.le_refl _)).
  - cbn. rewrite map_byte_of_code_of_byte. reflexivity.
  - clear. induction bs as [| b r IH]; cbn; constructor;
      [apply code_of_byte_bounded | exact IH].
Qed.

(** *** The codec, read against write *)

Ltac split_on_extension ext :=
  repeat match goal with
         | |- context [String.eqb ?k ext] =>
             destruct (String.eqb_spec k ext); [subst ext |]
         | |- context [String.eqb ext ?k] =>
             destruct (String.eqb_spec ext k); [subst ext |]
         end.

Lemma decode_binary env ext encoding raw :
  is_in ext [".txt"; ".py"; ".csv"; ".json"; ".ipynb"; ".pdf"; ".xlsx"; ".pptx"]
  = false ->
  decode_content env ext encoding raw = Ok (b64encode raw).
Proof.
  intros H. unfold is_in in H. cbn [existsb] in H.
  repeat (apply orb_false_iff in H; destruct H as [? H]). clear H.
  repeat match goal with
         | E : String.eqb ext _ = false |- _ => apply String.eqb_neq in E
         end.
  unfold decode_content, is_in. cbn [existsb].
  split_on_extension ext; try congruence. reflexivity.
Qed.

Lemma encode_binary env ext raw :
  is_in ext [".txt"; ".py"; ".csv"; ".json"; ".ipynb"; ".pdf"; ".xlsx"; ".pptx"]
  = false ->
  encode_content env (dict_get EXTENSION_TO_MIME ext "application/octet-stream")
                 (b64encode raw)
  = Ok raw.
Proof.
  intros H. unfold is_in in H. cbn [existsb] in H.
  repeat (apply orb_false_iff in H; destruct H as [? H]). clear H.
  repeat match goal with
         | E : String.eqb ext _ = false |- _ => apply String.eqb_neq in E
         end.
  unfold dict_get, EXTENSION_TO_MIME.
  split_on_extension ext; try congruence;
    unfold encode_content; cbn -[b64decode b64encode splitlines];
    rewrite b64_round_trip; reflexivity.
Qed.

Lemma write_file_update env name content fid parent_id st h :
  service st = Some h ->
  truthy fid = true ->
  write_file env name content (Some fid) parent_id st
  = match encode_content env (_get_mime_type name) content with
    | Raise e => (Ok (Error ("Failed to write file: " ++ exn_str e)), st)
    | Ok payload =>
        let body := FileBody name None None in
        let media := Media payload (_get_mime_type name) in
        let fields := "id,name,size,modifiedTime,webViewLink" in
        (match files_update env (trace st) fid body media fields with
         | Ok updated => Ok (Success (DataEntry updated))
         | Raise e => Ok (Error ("Failed to write file: " ++ exn_str e))
         end,
         log (FilesUpdate fid body media fields) st)
    end.
Proof.
  intros Hs Hf. unfold write_file. rewrite guarded_enveloped.
  unfold write_file_body, bind, get_service, lift, call. rewrite Hs.
  destruct (encode_content env (_get_mime_type name) content) as [payload | e];
    [| reflexivity].
  cbn [truthy_opt]. rewrite Hf. cbv zeta.
  destruct (files_update env (trace st) _ _ _ _); reflexivity.
Qed.

Lemma encode_utf8_ascii content :
  forall payload, encode_ascii content = Some payload ->
                  encode_utf8 content = payload.
Proof.
  induction content as [| c r IH]; intros payload H; cbn in H |- *.
  - congruence.
  - destruct (ord c <? 128)%N; [| discriminate H].
    destruct (encode_ascii r) as [p |]; [| discriminate H].
    cbn in H. injection H as <-. rewrite (IH p eq_refl). reflexivity.
Qed.

(** X1.  A file whose name bears none of the eight extensions that the read
    path decodes comes back from [read_file] as the base64 text of the bytes
    downloaded; and [write_file], given that text under the name of the
    file, sends exactly those bytes, in the one request it makes: a create
    request, or an update request when an identifier is given. *)
Theorem binary_content_round_trip :
  forall env file_name_or_id encoding parent_id st h file_id metadata raw st2,
    service st = Some h ->
    fetches env file_name_or_id parent_id st file_id metadata raw st2 ->
    is_in (lower (snd (splitext (e_name metadata))))
          [".txt"; ".py"; ".csv"; ".json"; ".ipynb"; ".pdf"; ".xlsx"; ".pptx"]
    = false ->
    read_file env file_name_or_id encoding parent_id st
    = (Ok (Success (DataContent metadata (b64encode raw))), st2) /\
    (forall parent st' h',
        service st' = Some h' ->
        trace (snd (write_file env (e_name metadata) (b64encode raw) None
                               parent st'))
        = FilesCreate (FileBody (e_name metadata) None (parents_of parent))
                      (Some (Media raw (_get_mime_type (e_name metadata))))
                      "id,name,size,createdTime,webViewLink,parents"
          :: trace st') /\
    (forall target parent st' h',
        service st' = Some h' ->
        truthy target = true ->
        trace (snd (write_file env (e_name metadata) (b64encode raw)
                               (Some target) parent st'))
        = FilesUpdate target (FileBody (e_name metadata) None None)
                      (Media raw (_get_mime_type (e_name metadata)))
                      "id,name,size,modifiedTime,webViewLink"
          :: trace st').
Proof.
  intros env file_name_or_id encoding parent_id st h file_id metadata raw st2
         Hs Hf Hext.
  assert (He : encode_content env (_get_mime_type (e_name metadata))
                              (b64encode raw) = Ok raw).
  { rewrite get_mime_type_of_ext. apply encode_binary. exact Hext. }
  split; [| split].
  - rewrite (read_file_fetched env file_name_or_id encoding parent_id st h
               file_id metadata raw st2 Hs Hf).
    unfold file_ext. rewrite (decode_binary env _ encoding raw Hext).
    reflexivity.
  - intros parent st' h' Hs'.
    rewrite (write_file_create env _ _ parent st' h' Hs'), He. reflexivity.
  - intros target parent st' h' Hs' Ht.
    rewrite (write_file_update env _ _ target parent st' h' Hs' Ht), He.
    reflexivity.
Qed.

Lemma binary_content_round_trip_witness :
  read_file Desk.gallery "holiday.PNG" "utf-8" "root" Scenario.logged_in
  = (Ok (Success (DataContent Desk.photo "UEs=")),
     State (Some Scenario.fresh) (Some (Pickled (Some Scenario.fresh))) 1000
           [ NextChunk "idP"; NextChunk "idP";
             FilesGet "idP" "id,name,mimeType,size,modifiedTime";
             FilesList "'root' in parents and name='holiday.PNG' and trashed=false"
                       None "files(id,name)" ]) /\
  trace (snd (write_file Desk.gallery "holiday.PNG" "UEs=" None (Some "idA")
                         Scenario.logged_in))
  = [ FilesCreate (FileBody "holiday.PNG" None (Some ["idA"]))
                  (Some (Media ["P"%byte; "K"%byte] "image/png"))
                  "id,name,size,createdTime,webViewLink,parents" ].
Proof.
  assert (F : fetches Desk.gallery "holiday.PNG" "root" Scenario.logged_in "idP"
                      Desk.photo ["P"%byte; "K"%byte]
                      (State (Some Scenario.fresh)
                             (Some (Pickled (Some Scenario.fresh))) 1000
                             [ NextChunk "idP"; NextChunk "idP";
                               FilesGet "idP" "id,name,mimeType,size,modifiedTime";
                               FilesList "'root' in parents and name='holiday.PNG' and trashed=false"
                                         None "files(id,name)" ])).
  { eexists. split; [right; repeat split; reflexivity |].
    split; reflexivity. }
  destruct (binary_content_round_trip Desk.gallery "holiday.PNG" "utf-8" "root"
              Scenario.logged_in Scenario.fresh "idP" Desk.photo
              ["P"%byte; "K"%byte] _ eq_refl F eq_refl) as (R & W & _).
  split; [exact R |].
  exact (W (Some "idA") Scenario.logged_in Scenario.fresh eq_refl).
Defined.

(** X2.  A name is read as text exactly when it is written as text: its
    lowercased extension is one of the five that the read path decodes with
    the caller's encoding if and only if its MIME type takes the text branch
    of the write path.  For such a name [read_file] returns the downloaded
    bytes decoded with the encoding asked for (and the error envelope when
    they do not decode), without a document library; and [write_file] sends
    content made of ASCII characters as its bytes, whether or not it is
    base64. *)
Theorem text_kinds_agree :
  forall name,
    is_in (lower (snd (splitext name))) [".txt"; ".py"; ".csv"; ".json"; ".ipynb"]
    = (startswith (_get_mime_type name) "text/"
       || String.eqb (_get_mime_type name) "application/json") /\
    (is_in (lower (snd (splitext name))) [".txt"; ".py"; ".csv"; ".json"; ".ipynb"]
     = true ->
     (forall env file_name_or_id encoding parent_id st h file_id metadata raw st2,
         service st = Some h ->
         fetches env file_name_or_id parent_id st file_id metadata raw st2 ->
         e_name metadata = name ->
         read_file env file_name_or_id encoding parent_id st
         = (match decode_text env encoding raw with
            | Ok text => Ok (Success (DataContent metadata text))
            | Raise e => Ok (Error ("Failed to read file: " ++ exn_str e))
            end, st2)) /\
     (forall env content payload parent_id st h,
         service st = Some h ->
         encode_ascii content = Some payload ->
         trace (snd (write_file env name content None parent_id st))
         = FilesCreate (FileBody name None (parents_of parent_id))
                       (Some (Media payload (_get_mime_type name)))
                       "id,name,size,createdTime,webViewLink,parents"
           :: trace st)).
Proof.
  intros name.
  assert (A : is_in (file_ext name) [".txt"; ".py"; ".csv"; ".json"; ".ipynb"]
              = (startswith (_get_mime_type name) "text/"
                 || String.eqb (_get_mime_type name) "application/json")).
  { rewrite get_mime_type_of_ext. generalize (file_ext name) as ext. intros ext.
    unfold is_in, dict_get, EXTENSION_TO_MIME. cbn [existsb].
    split_on_extension ext; try reflexivity; congruence. }
  split; [exact A |].
  change (lower (snd (splitext name))) with (file_ext name).
  intros H. split.
  - intros env file_name_or_id encoding parent_id st h file_id metadata raw st2
           Hs Hf Hn.
    rewrite (read_file_fetched env file_name_or_id encoding parent_id st h
               file_id metadata raw st2 Hs Hf).
    rewrite Hn. unfold decode_content. rewrite H. reflexivity.
  - intros env content payload parent_id st h Hs Hp.
    rewrite (write_file_create env name content parent_id st h Hs).
    assert (E : encode_content env (_get_mime_type name) content = Ok payload).
    { rewrite A in H. unfold encode_content.
      destruct (String.eqb (_get_mime_type name) PDF_MIME) eqn:E1.
      { apply String.eqb_eq in E1. rewrite E1 in H. discriminate H. }
      destruct (String.eqb (_get_mime_type name) XLSX_MIME) eqn:E2.
      { apply String.eqb_eq in E2. rewrite E2 in H. discriminate H. }
      destruct (String.eqb (_get_mime_type name) PPTX_MIME) eqn:E3.
      { apply String.eqb_eq in E3. rewrite E3 in H. discriminate H. }
      destruct (String.eqb (_get_mime_type name) DOCX_MIME) eqn:E4.
      { apply String.eqb_eq in E4. rewrite E4 in H. discriminate H. }
      rewrite H. rewrite (encode_utf8_ascii content payload Hp). reflexivity. }
    rewrite E. reflexivity.
Qed.

Lemma text_kinds_agree_witness :
  read_file Desk.shelf "1AbCdEfGhIjKlMnOpQrStUvWxYz012345" "utf-8" "root"
            Scenario.logged_in
  = (Ok (Success (DataContent Desk.notes "hi")),
     State (Some Scenario.fresh) (Some (Pickled (Some Scenario.fresh))) 1000
           [ NextChunk "1AbCdEfGhIjKlMnOpQrStUvWxYz012345";
             FilesGet "1AbCdEfGhIjKlMnOpQrStUvWxYz012345"
                      "id,name,mimeType,size,modifiedTime" ]) /\
  trace (snd (write_file Desk.shelf "NOTES.TXT" "QUJD" None None
                         Scenario.logged_in))
  = [ FilesCreate (FileBody "NOTES.TXT" None None)
                  (Some (Media ["Q"%byte; "U"%byte; "J"%byte; "D"%byte]
                               "text/plain"))
                  "id,name,size,createdTime,webViewLink,parents" ].
Proof.
  destruct (proj2 (text_kinds_agree "NOTES.TXT") eq_refl) as (R & W).
  split.
  - refine (R Desk.shelf "1AbCdEfGhIjKlMnOpQrStUvWxYz012345" "utf-8" "root"
              Scenario.logged_in Scenario.fresh
              "1AbCdEfGhIjKlMnOpQrStUvWxYz012345" Desk.notes
              ["h"%byte; "i"%byte] _ eq_refl _ eq_refl).
    eexists. split; [left; repeat split; reflexivity |].
    split; reflexivity.
  - exact (W Desk.shelf "QUJD" ["Q"%byte; "U"%byte; "J"%byte; "D"%byte] None
             Scenario.logged_in Scenario.fresh eq_refl eq_refl).
Defined.

(** *** What the operations leave alone *)

Lemma only_ret {A} allowed (a : A) : only_requests allowed (ret a).
Proof. intros st. cbn. repeat split. now exists []. Qed.

Lemma only_lift {A} allowed (o : outcome A) : only_requests allowed (lift o).
Proof. intros st. cbn. repeat split. now exists []. Qed.

Lemma only_get_service allowed : only_requests allowed get_service.
Proof. intros st. cbn. repeat split. now exists []. Qed.

Lemma only_call {A} (allowed : request -> bool) r (answer : list request -> outcome A) :
  allowed r = true -> only_requests allowed (call r answer).
Proof.
  intros H st. cbn. repeat split. exists [r]. cbn. now rewrite H.
Qed.

Lemma only_bind {A B} allowed (m : M A) (k : A -> M B) :
  only_requests allowed m ->
  (forall a, only_requests allowed (k a)) ->
  only_requests allowed (bind m k).
Proof.
  intros Hm Hk st. unfold bind. specialize (Hm st).
  destruct (m st) as [[a | e] st1]; cbn in Hm |- *; [| exact Hm].
  destruct Hm as (H1 & H2 & H3 & new1 & H4 & H5).
  destruct (Hk a st1) as (K1 & K2 & K3 & new2 & K4 & K5).
  repeat split; try congruence.
  exists (new2 ++ new1)%list. rewrite K4, H4, app_assoc. split; [reflexivity |].
  rewrite forallb_app, K5, H5. reflexivity.
Qed.

Lemma only_try_except {A} allowed (body : M A) (handler : exn -> M A) :
  only_requests allowed body ->
  (forall e, only_requests allowed (handler e)) ->
  only_requests allowed (try_except body handler).
Proof.
  intros Hm Hk st. unfold try_except. specialize (Hm st).
  destruct (body st) as [[a | e] st1]; cbn in Hm |- *; [exact Hm |].
  destruct Hm as (H1 & H2 & H3 & new1 & H4 & H5).
  destruct (Hk e st1) as (K1 & K2 & K3 & new2 & K4 & K5).
  repeat split; try congruence.
  exists (new2 ++ new1)%list. rewrite K4, H4, app_assoc. split; [reflexivity |].
  rewrite forallb_app, K5, H5. reflexivity.
Qed.

Lemma only_for_in {X R S} allowed (body : X -> S -> M (flow R S)) :
  (forall x s, only_requests allowed (body x s)) ->
  forall xs s, only_requests allowed (for_in xs body s).
Proof.
  intros Hb xs. induction xs as [| x rest IH]; intros s; cbn [for_in].
  - apply only_ret.
  - apply only_bind; [apply Hb |].
    intros [r | s']; [apply only_ret | apply IH].
Qed.

Lemma only_download_loop fileId t :
  forall file_io, only_requests is_read (download_loop fileId t file_io).
Proof.
  induction t as [last | b rest IH | e]; intros file_io; cbn [download_loop].
  - now apply only_call.
  - apply only_bind; [now apply only_call | intros _; apply IH].
  - now apply only_call.
Qed.

Lemma only_download env fileId : only_requests is_read (download env fileId).
Proof. intros st. unfold download. apply only_download_loop. Qed.

Ltac only_step :=
  first
    [ apply only_ret
    | apply only_lift
    | apply only_get_service
    | apply only_download
    | apply only_call; reflexivity
    | apply only_try_except; [| intros ?]
    | apply only_bind; [| intros ?]
    | apply only_for_in; intros ? ?
    | match goal with
      | |- only_requests _ (match ?x with _ => _ end) => destruct x
      | |- only_requests _ (if ?b then _ else _) => destruct b
      end ].

Lemma only_list_directory env folder_id max_results :
  only_requests is_read (list_directory env folder_id max_results).
Proof. unfold list_directory, list_directory_body. repeat only_step. Qed.

Lemma only_navigate_path env path :
  only_requests is_read (navigate_path env path).
Proof.
  unfold navigate_path, navigate_path_body, navigate_step.
  repeat first [apply only_list_directory | only_step].
Qed.

Lemma only_read_file env file_name_or_id encoding parent_id :
  only_requests is_read (read_file env file_name_or_id encoding parent_id).
Proof.
  unfold read_file, read_file_body, read_resolved, _get_file_id_by_name.
  repeat only_step.
Qed.

Lemma only_create_folder env name parent_id :
  only_requests is_upload (create_folder env name parent_id).
Proof. unfold create_folder, create_folder_body. repeat only_step. Qed.

Lemma only_write_file env name content file_id parent_id :
  only_requests is_upload (write_file env name content file_id parent_id).
Proof. unfold write_file, write_file_body. repeat only_step. Qed.

Lemma reads_make_no_upload {A} (m : M A) :
  only_requests is_read m -> makes_no is_upload m.
Proof.
  intros H st. destruct (H st) as (_ & T & _ & new & E & F).
  split; [exact T |]. exists new. split; [exact E |].
  apply forallb_forall. intros r Hr.
  rewrite forallb_forall in F. specialize (F r Hr).
  destruct r; cbn in F |- *; congruence.
Qed.

Lemma uploads_make_no_read {A} (m : M A) :
  only_requests is_upload m -> makes_no is_read m.
Proof.
  intros H st. destruct (H st) as (_ & T & _ & new & E & F).
  split; [exact T |]. exists new. split; [exact E |].
  apply forallb_forall. intros r Hr.
  rewrite forallb_forall in F. specialize (F r Hr).
  destruct r; cbn in F |- *; congruence.
Qed.

(** X3.  Reading does not write and writing does not read.  Among the
    requests that [list_directory], [navigate_path] and [read_file] make
    there is no create and no update request: they change nothing on the
    drive.  Among those that [create_folder] and [write_file] make there is
    no list, get or chunk request: in particular [write_file] never looks
    for a file of the same name before it creates one.  None of the five
    touches the token file. *)
Theorem reading_does_not_write :
  forall env,
    (forall folder_id max_results,
        makes_no is_upload (list_directory env folder_id max_results)) /\
    (forall path, makes_no is_upload (navigate_path env path)) /\
    (forall file_name_or_id encoding parent_id,
        makes_no is_upload
          (read_file env file_name_or_id encoding parent_id)) /\
    (forall name parent_id,
        makes_no is_read (create_folder env name parent_id)) /\
    (forall name content file_id parent_id,
        makes_no is_read
          (write_file env name content file_id parent_id)).
Proof.
  intros env. split; [| split; [| split; [| split]]]; intros.
  - apply reads_make_no_upload, only_list_directory.
  - apply reads_make_no_upload, only_navigate_path.
  - apply reads_make_no_upload, only_read_file.
  - apply uploads_make_no_read, only_create_folder.
  - apply uploads_make_no_read, only_write_file.
Qed.

(** *** The download loop *)

Lemma repeat_shift {A} (x : A) n l :
  (repeat x n ++ x :: l)%list = (x :: repeat x n ++ l)%list.
Proof. induction n as [| n IH]; cbn; [reflexivity | now rewrite IH]. Qed.

Lemma download_loop_run fileId t :
  forall file_io st,
    download_loop fileId t file_io st
    = (match transfer_bytes t with
       | Ok more => Ok (file_io ++ more)%list
       | Raise e => Raise e
       end,
       State (service st) (token_file st) (clock st)
             (repeat (NextChunk fileId) (pulls t) ++ trace st)).
Proof.
  induction t as [last | b rest IH | e]; intros file_io st; cbn.
  - reflexivity.
  - unfold bind, call. rewrite IH. cbn. rewrite repeat_shift.
    destruct (transfer_bytes rest); [rewrite <- app_assoc |]; reflexivity.
  - reflexivity.
Qed.

(** X4.  The pull loop of [read_file] makes one request per chunk of the
    transfer and yields the chunks joined in the order of their delivery;
    when a pull raises, the exception leaves the loop and nothing of what
    was buffered is returned. *)
Theorem download_joins_the_chunks :
  forall env fileId st,
    download env fileId st
    = (transfer_bytes (get_media env (trace st) fileId),
       State (service st) (token_file st) (clock st)
             (repeat (NextChunk fileId)
                     (pulls (get_media env (trace st) fileId))
              ++ trace st)).
Proof.
  intros env fileId st. unfold download. rewrite download_loop_run.
  destruct (transfer_bytes (get_media env (trace st) fileId)); reflexivity.
Qed.

Lemma read_resolved_result env file_id encoding st :
  read_resolved env file_id encoding st
  = let fields := "id,name,mimeType,size,modifiedTime" in
    match files_get env (trace st) file_id fields with
    | Raise e => (Raise e, log (FilesGet file_id fields) st)
    | Ok metadata =>
        let t := get_media env (FilesGet file_id fields :: trace st) file_id in
        let st' := State (service st) (token_file st) (clock st)
                         (repeat (NextChunk file_id) (pulls t)
                          ++ FilesGet file_id fields :: trace st) in
        match transfer_bytes t with
        | Raise e => (Raise e, st')
        | Ok raw =>
            match decode_content env (file_ext (e_name metadata)) encoding raw with
            | Ok content => (Ok (Success (DataContent metadata content)), st')
            | Raise e => (Raise e, st')
            end
        end
    end.
Proof.
  unfold read_resolved. unfold bind at 1, call at 1.
  destruct (files_get env (trace st) file_id "id,name,mimeType,size,modifiedTime")
    as [metadata | e]; [| reflexivity].
  unfold bind at 1. unfold download. rewrite download_loop_run. cbn.
  destruct (transfer_bytes _) as [raw | e]; [| reflexivity].
  unfold bind, lift, ret.
  destruct (decode_content env (file_ext (e_name metadata)) encoding raw);
    reflexivity.
Qed.

(** X5.  When [read_file] is given an identifier and the download aborts
    after the metadata were fetched, the result is the error envelope
    "Failed to read file: ..." with the text of the exception: neither the
    metadata nor the chunks already received are returned. *)
Theorem aborted_download_fails_the_read :
  forall env file_id encoding parent_id st h metadata e,
    service st = Some h ->
    looks_like_id file_id = true ->
    files_get env (trace st) file_id "id,name,mimeType,size,modifiedTime"
    = Ok metadata ->
    transfer_bytes
      (get_media env
         (FilesGet file_id "id,name,mimeType,size,modifiedTime" :: trace st)
         file_id)
    = Raise e ->
    fst (read_file env file_id encoding parent_id st)
    = Ok (Error ("Failed to read file: " ++ exn_str e)).
Proof.
  intros env file_id encoding parent_id st h metadata e Hs Hid Hm Ht.
  unfold read_file. rewrite guarded_enveloped. unfold read_file_body.
  unfold bind at 1, get_service at 1. rewrite Hs, Hid.
  rewrite read_resolved_result. cbv zeta. rewrite Hm, Ht. reflexivity.
Qed.

Lemma aborted_download_fails_the_read_witness :
  fst (read_file Desk.renewing "1AbCdEfGhIjKlMnOpQrStUv" "utf-8" "root"
                 Scenario.logged_in)
  = Ok (Error "Failed to read file: 503 backend error").
Proof.
  apply (aborted_download_fails_the_read Desk.renewing "1AbCdEfGhIjKlMnOpQrStUv"
           "utf-8" "root" Scenario.logged_in Scenario.fresh Scenario.report
           (Exn "HttpError" "503 backend error"));
    reflexivity.
Defined.

(** *** Looking a file up by name *)

Lemma get_file_id_by_name_run env name parent_id st :
  _get_file_id_by_name env name parent_id st
  = let query := "'" ++ parent_id ++ "' in parents and name='" ++ name
                     ++ "' and trashed=false" in
    (match files_list env (trace st) query None "files(id,name)" with
     | Ok results =>
         match get_files results with
         | [] => Ok None
         | first :: _ => Ok (Some (e_id first))
         end
     | Raise _ => Ok None
     end,
     log (FilesList query None "files(id,name)") st).
Proof.
  unfold _get_file_id_by_name, try_except, bind, call. cbv zeta.
  destruct (files_list env (trace st) _ None "files(id,name)") as [results | e];
    [| reflexivity].
  destruct (get_files results); reflexivity.
Qed.

(** X6.  When [read_file] is given a name (an input of at most 20
    characters, or one that ends in a known extension) and the lookup in
    the parent folder raises, finds no file, or finds a first file whose
    identifier is empty, the result is the error "File '<name>' not found",
    after that one request: a failure of the lookup is reported as a file
    that does not exist. *)
Theorem failed_lookup_reads_as_not_found :
  forall env name encoding parent_id st h,
    service st = Some h ->
    looks_like_id name = false ->
    (match files_list env (trace st)
                      ("'" ++ parent_id ++ "' in parents and name='" ++ name
                           ++ "' and trashed=false")
                      None "files(id,name)" with
     | Raise _ => True
     | Ok results =>
         match get_files results with
         | [] => True
         | first :: _ => e_id first = ""
         end
     end) ->
    read_file env name encoding parent_id st
    = (Ok (Error ("File '" ++ name ++ "' not found")),
       log (FilesList ("'" ++ parent_id ++ "' in parents and name='" ++ name
                            ++ "' and trashed=false")
                      None "files(id,name)") st).
Proof.
  intros env name encoding parent_id st h Hs Hid Hl.
  unfold read_file. rewrite guarded_enveloped. unfold read_file_body.
  unfold bind at 1, get_service at 1. rewrite Hs, Hid.
  unfold bind. rewrite get_file_id_by_name_run. cbv zeta.
  destruct (files_list env (trace st) _ None "files(id,name)") as [results | e];
    [| reflexivity].
  destruct (get_files results) as [| first others]; [reflexivity |].
  rewrite Hl. reflexivity.
Qed.

Lemma failed_lookup_reads_as_not_found_witness :
  read_file Desk.offline "notes.txt" "utf-8" "root" Scenario.logged_in
  = (Ok (Error "File 'notes.txt' not found"),
     log (FilesList "'root' in parents and name='notes.txt' and trashed=false"
                    None "files(id,name)") Scenario.logged_in).
Proof.
  apply (failed_lookup_reads_as_not_found Desk.offline "notes.txt" "utf-8" "root"
           Scenario.logged_in Scenario.fresh); [reflexivity | reflexivity |].
  exact I.
Defined.

(** *** More on navigate_path *)

Lemma navigate_path_by_segments env path st h :
  service st = Some h ->
  navigate_path env path st
  = match resolve_path env (filter truthy (split "/"%char path)) "root" st with
    | (Reached folder_id, st') => list_directory env (Some folder_id) 100 st'
    | (NotFound, st') => (Ok (Error ("Path '" ++ path ++ "' not found")), st')
    | (Failed e, st') =>
        (Ok (Error ("Failed to navigate path: " ++ exn_str e)), st')
    end.
Proof.
  intros Hs. unfold navigate_path. rewrite guarded_enveloped.
  unfold navigate_path_body. unfold bind at 1, get_service at 1. rewrite Hs.
  destruct (String.eqb path "/" || String.eqb path "") eqn:Hroot.
  - assert (Hseg : filter truthy (split "/"%char path) = []).
    { apply orb_true_iff in Hroot as [H | H]; apply String.eqb_eq in H;
        subst path; reflexivity. }
    rewrite Hseg. cbn [resolve_path].
    destruct (list_directory_total env (Some "root") 100%Z st) as (r & st' & Hl).
    rewrite Hl. reflexivity.
  - unfold bind. rewrite for_in_navigate.
    destruct (resolve_path env (filter truthy (split "/"%char path)) "root" st)
      as [[folder_id | | e] st']; try reflexivity.
    destruct (list_directory_total env (Some folder_id) 100%Z st')
      as (r & st'' & Hl).
    rewrite Hl. reflexivity.
Qed.

Lemma resolve_path_budget env segments :
  forall current st,
    (List.length (trace (snd (resolve_path env segments current st)))
     <= List.length segments + List.length (trace st))%nat.
Proof.
  induction segments as [| segment rest IH]; intros current st;
    cbn [resolve_path]; [cbn; lia |].
  destruct (files_list env (trace st) _ None "files(id,name)") as [results | e];
    [| cbn; lia].
  destruct (get_files results) as [| first others]; [cbn; lia |].
  specialize (IH (e_id first)
                 (log (FilesList (child_folder_query current segment) None
                                 "files(id,name)") st)).
  cbn in IH |- *. lia.
Qed.

Lemma list_directory_budget env folder_id max_results :
  at_most 1 (list_directory env folder_id max_results).
Proof.
  intros st. unfold list_directory. rewrite guarded_enveloped.
  unfold list_directory_body, bind, get_service, call.
  destruct (service st); [| cbn; lia].
  destruct (files_list env (trace st) _ (Some max_results) _); cbn; lia.
Qed.

Lemma navigate_path_trace_budget env path :
  at_most (List.length (filter truthy (split "/"%char path)) + 1)
          (navigate_path env path).
Proof.
  intros st.
  destruct (service st) as [h |] eqn:Hs.
  - rewrite (navigate_path_by_segments env path st h Hs).
    pose proof (resolve_path_budget env (filter truthy (split "/"%char path))
                                    "root" st) as Hb.
    destruct (resolve_path env (filter truthy (split "/"%char path)) "root" st)
      as [[folder_id | | e] st']; cbn [snd] in Hb |- *; try lia.
    pose proof (list_directory_budget env (Some folder_id) 100%Z st'). lia.
  - rewrite (unbound_navigate_path env path st Hs). cbn. lia.
Qed.

(** X7.  [navigate_path] makes at most one list request per non-empty
    segment of the path, and one more for the final listing. *)
Theorem navigate_path_request_budget :
  forall env path,
    lists_at_most (List.length (filter truthy (split "/"%char path)) + 1)
                  (navigate_path env path).
Proof.
  intros env path st.
  destruct (only_navigate_path env path st) as (_ & _ & _ & new & E & _).
  exists new. split; [exact E |].
  pose proof (navigate_path_trace_budget env path st) as B.
  rewrite E, length_app in B.
  pose proof (filter_length_le is_list new). lia.
Qed.

(** X8.  Empty segments do not count: two paths with the same non-empty
    segments (as "/A//B/" and "A/B") make the same requests and give the
    same result, except that when a segment is not found each call names its
    own path in the error. *)
Theorem navigate_path_ignores_empty_segments :
  forall env path1 path2 st,
    filter truthy (split "/"%char path1) = filter truthy (split "/"%char path2) ->
    navigate_path env path1 st = navigate_path env path2 st \/
    exists st',
      navigate_path env path1 st
      = (Ok (Error ("Path '" ++ path1 ++ "' not found")), st') /\
      navigate_path env path2 st
      = (Ok (Error ("Path '" ++ path2 ++ "' not found")), st').
Proof.
  intros env path1 path2 st Hseg.
  destruct (service st) as [h |] eqn:Hs.
  - rewrite (navigate_path_by_segments env path1 st h Hs),
            (navigate_path_by_segments env path2 st h Hs), Hseg.
    destruct (resolve_path env (filter truthy (split "/"%char path2)) "root" st)
      as [[folder_id | | e] st']; [left; reflexivity | | left; reflexivity].
    right. exists st'. split; reflexivity.
  - left. now rewrite !unbound_navigate_path.
Qed.

Lemma navigate_path_ignores_empty_segments_witness :
  navigate_path Scenario.drive "/A//" Scenario.logged_in
  = navigate_path Scenario.drive "A" Scenario.logged_in /\
  fst (navigate_path Scenario.drive "A" Scenario.logged_in)
  = Ok (Success (DataFiles [Scenario.report])).
Proof.
  split; [| reflexivity].
  destruct (navigate_path_ignores_empty_segments Scenario.drive "/A//" "A"
              Scenario.logged_in eq_refl) as [H | (st' & H & _)].
  - exact H.
  - discriminate H.
Defined.

Lemma slashes_have_no_segment path :
  only_slashes path = true -> filter truthy (split "/"%char path) = [].
Proof.
  induction path as [| c r IH]; intros H; [reflexivity |].
  cbn in H. apply andb_true_iff in H as [Hc Hr].
  cbn [split]. rewrite Hc. cbn. apply IH. exact Hr.
Qed.

(** X9.  A path made of slashes only, of any length, is the root: the
    result is that of [list_directory("root")]. *)
Theorem slash_only_paths_list_the_root :
  forall env path st,
    only_slashes path = true ->
    navigate_path env path st = list_directory env (Some "root") 100 st.
Proof.
  intros env path st H.
  destruct (service st) as [h |] eqn:Hs.
  - rewrite (navigate_path_by_segments env path st h Hs).
    rewrite (slashes_have_no_segment path H). reflexivity.
  - rewrite unbound_navigate_path, unbound_list_directory by exact Hs.
    reflexivity.
Qed.

Lemma slash_only_paths_list_the_root_witness :
  navigate_path Scenario.drive "///" Scenario.logged_in
  = list_directory Scenario.drive (Some "root") 100 Scenario.logged_in.
Proof.
  apply (slash_only_paths_list_the_root Scenario.drive "///" Scenario.logged_in).
  reflexivity.
Defined.

(** *** The root sentinel *)

Lemma parents_of_root parent_id :
  In parent_id [None; Some ""; Some "root"] -> parents_of parent_id = None.
Proof. intros [<- | [<- | [<- | []]]]; reflexivity. Qed.

Lemma or_root_root folder_id :
  In folder_id [None; Some ""; Some "root"] -> or_root folder_id = "root".
Proof. intros [<- | [<- | [<- | []]]]; reflexivity. Qed.

(** X10.  "root" is a sentinel that is never sent as a parent: with
    [parent_id] absent, empty or "root", [create_folder] and [write_file]
    behave as without parent (the request has no [parents] entry), and
    [list_directory] lists the root; with any other [parent_id],
    [create_folder] sends that one parent. *)
Theorem root_is_never_sent_as_parent :
  forall env st parent_id,
    (In parent_id [None; Some ""; Some "root"] ->
     (forall name,
         create_folder env name parent_id st = create_folder env name None st) /\
     (forall name content file_id,
         write_file env name content file_id parent_id st
         = write_file env name content file_id None st) /\
     (forall max_results,
         list_directory env parent_id max_results st
         = list_directory env None max_results st)) /\
    (forall p h name,
        parent_id = Some p -> truthy p = true -> p <> "root" ->
        service st = Some h ->
        trace (snd (create_folder env name parent_id st))
        = FilesCreate (FileBody name (Some FOLDER_MIME) (Some [p])) None
                      "id,name,parents,createdTime,webViewLink"
          :: trace st).
Proof.
  intros env st parent_id. split.
  - intros H. pose proof (parents_of_root parent_id H) as Hp.
    pose proof (or_root_root parent_id H) as Hr.
    repeat split; intros.
    + unfold create_folder, create_folder_body. rewrite Hp. reflexivity.
    + unfold write_file, write_file_body. rewrite Hp. reflexivity.
    + unfold list_directory, list_directory_body. rewrite Hr. reflexivity.
  - intros p h name -> Ht Hn Hs.
    unfold create_folder. rewrite guarded_enveloped.
    unfold create_folder_body, bind, get_service, call. rewrite Hs.
    unfold parents_of. rewrite Ht. apply String.eqb_neq in Hn. rewrite Hn.
    cbn [andb negb].
    destruct (files_create env (trace st) _ None _); reflexivity.
Qed.

Lemma root_is_never_sent_as_parent_witness :
  create_folder Scenario.drive "Q3" (Some "root") Scenario.logged_in
  = create_folder Scenario.drive "Q3" None Scenario.logged_in /\
  trace (snd (create_folder Scenario.drive "Q3" (Some "idA") Scenario.logged_in))
  = [FilesCreate (FileBody "Q3" (Some FOLDER_MIME) (Some ["idA"])) None
                 "id,name,parents,createdTime,webViewLink"].
Proof.
  split.
  - apply (root_is_never_sent_as_parent Scenario.drive Scenario.logged_in
             (Some "root")).
    cbn. auto.
  - apply (proj2 (root_is_never_sent_as_parent Scenario.drive Scenario.logged_in
                    (Some "idA")) "idA" Scenario.fresh "Q3");
      [reflexivity | reflexivity | discriminate | reflexivity].
Defined.

(** *** With a session, no call is refused *)

Lemma accepted_enveloped prefix (body : outcome envelope * state) :
  match prefix with
  | String c _ => Ascii.eqb c "N"%char = false
  | EmptyString => False
  end ->
  (forall v st', body = (Ok v, st') -> v <> unauthenticated) ->
  accepted (fst (enveloped (fun msg => Error (prefix ++ msg)) body)).
Proof.
  intros Hp Hb. destruct body as [[v | e] st']; cbn.
  - exists v. split; [reflexivity | now apply (Hb v st')].
  - eexists. split; [reflexivity |].
    destruct prefix as [| c r]; [contradiction |].
    unfold unauthenticated. cbn. intros H. injection H as Hc _.
    subst c. discriminate Hp.
Qed.

Lemma accepted_list_directory env folder_id max_results st h :
  service st = Some h ->
  accepted (fst (list_directory env folder_id max_results st)).
Proof.
  intros Hs. unfold list_directory. rewrite guarded_enveloped.
  apply accepted_enveloped; [reflexivity |].
  unfold list_directory_body, bind, get_service, call. rewrite Hs.
  intros v st'. destruct (files_list env (trace st) _ _ _); cbn;
    intros H; inversion H; discriminate.
Qed.

Lemma accepted_create_folder env name parent_id st h :
  service st = Some h ->
  accepted (fst (create_folder env name parent_id st)).
Proof.
  intros Hs. unfold create_folder. rewrite guarded_enveloped.
  apply accepted_enveloped; [reflexivity |].
  unfold create_folder_body, bind, get_service, call. rewrite Hs.
  intros v st'. destruct (files_create env (trace st) _ _ _); cbn;
    intros H; inversion H; discriminate.
Qed.

Lemma accepted_navigate_path env path st h :
  service st = Some h ->
  accepted (fst (navigate_path env path st)).
Proof.
  intros Hs. rewrite (navigate_path_by_segments env path st h Hs).
  assert (Hres : forall segments current st0,
             service st0 = Some h ->
             service (snd (resolve_path env segments current st0)) = Some h).
  { induction segments as [| segment rest IH]; intros current st0 H0;
      cbn [resolve_path]; [exact H0 |].
    destruct (files_list env (trace st0) _ None _) as [results | e];
      [| exact H0].
    destruct (get_files results); [exact H0 |]. apply IH. exact H0. }
  specialize (Hres (filter truthy (split "/"%char path)) "root" st Hs).
  destruct (resolve_path env (filter truthy (split "/"%char path)) "root" st)
    as [[folder_id | | e] st']; cbn [snd] in Hres.
  - now apply (accepted_list_directory env _ _ st' h).
  - eexists. split; [reflexivity | discriminate].
  - eexists. split; [reflexivity | discriminate].
Qed.

Lemma accepted_read_file env file_name_or_id encoding parent_id st h :
  service st = Some h ->
  accepted (fst (read_file env file_name_or_id encoding parent_id st)).
Proof.
  intros Hs. unfold read_file. rewrite guarded_enveloped.
  apply accepted_enveloped; [reflexivity |].
  assert (Hr : forall fid st0 v st',
             read_resolved env fid encoding st0 = (Ok v, st') ->
             v <> unauthenticated).
  { intros fid st0 v st'. rewrite read_resolved_result. cbv zeta.
    destruct (files_get env (trace st0) fid _); [| discriminate].
    destruct (transfer_bytes _); [| discriminate].
    destruct (decode_content env _ encoding _); [| discriminate].
    intros H; inversion H; discriminate. }
  unfold read_file_body. unfold bind at 1, get_service at 1. rewrite Hs.
  intros v st'. destruct (looks_like_id file_name_or_id); [apply Hr |].
  unfold bind. rewrite get_file_id_by_name_run. cbv zeta.
  destruct (match files_list env (trace st) _ None "files(id,name)" with
            | Ok _ => _ | Raise _ => _ end) as [[fid |] | e];
    try (cbn; intros H; inversion H; discriminate).
  destruct (truthy fid); [apply Hr |].
  cbn; intros H; inversion H; discriminate.
Qed.

Lemma accepted_write_file env name content file_id parent_id st h :
  service st = Some h ->
  accepted (fst (write_file env name content file_id parent_id st)).
Proof.
  intros Hs. unfold write_file. rewrite guarded_enveloped.
  apply accepted_enveloped; [reflexivity |].
  unfold write_file_body. unfold bind at 1, get_service at 1. rewrite Hs.
  intros v st'. unfold bind, lift, call.
  destruct (encode_content env (_get_mime_type name) content);
    [| discriminate].
  destruct (truthy_opt file_id).
  - destruct (files_update env (trace st) _ _ _ _); cbn;
      intros H; inversion H; discriminate.
  - destruct (files_create env (trace st) _ _ _); cbn;
      intros H; inversion H; discriminate.
Qed.

(** X11.  With a session bound, none of the five public operations
    answers "Not authenticated", whatever the network and the libraries
    do: each ends with an envelope that is a success or an error of its
    own. *)
Theorem bound_session_is_never_refused :
  forall env st h,
    service st = Some h ->
    (forall name parent_id,
        accepted (fst (create_folder env name parent_id st))) /\
    (forall folder_id max_results,
        accepted (fst (list_directory env folder_id max_results st))) /\
    (forall path, accepted (fst (navigate_path env path st))) /\
    (forall file_name_or_id encoding parent_id,
        accepted (fst (read_file env file_name_or_id encoding parent_id st))) /\
    (forall name content file_id parent_id,
        accepted (fst (write_file env name content file_id parent_id st))).
Proof.
  intros env st h Hs. split; [| split; [| split; [| split]]]; intros.
  - now apply (accepted_create_folder env _ _ st h).
  - now apply (accepted_list_directory env _ _ st h).
  - now apply (accepted_navigate_path env _ st h).
  - now apply (accepted_read_file env _ _ _ st h).
  - now apply (accepted_write_file env _ _ _ _ st h).
Qed.

Lemma bound_session_is_never_refused_witness :
  accepted (fst (read_file Desk.offline "notes.txt" "utf-8" "root"
                           Scenario.logged_in)).
Proof.
  apply (bound_session_is_never_refused Desk.offline Scenario.logged_in
           Scenario.fresh eq_refl).
Defined.

(** *** The tools of the server *)

Lemma run_tool_keeps_client env c st :
  service (snd (Server.run_tool env c st)) = service st /\
  token_file (snd (Server.run_tool env c st)) = token_file st /\
  clock (snd (Server.run_tool env c st)) = clock st.
Proof.
  destruct c; cbn [Server.run_tool].
  - destruct (only_list_directory env (Some folder_id) max_results st)
      as (H1 & H2 & H3 & _); auto.
  - destruct (only_create_folder env name (Some parent_id) st)
      as (H1 & H2 & H3 & _); auto.
  - destruct (only_navigate_path env path st) as (H1 & H2 & H3 & _); auto.
  - destruct (only_read_file env file_name_or_id encoding parent_id st)
      as (H1 & H2 & H3 & _); auto.
  - destruct (only_write_file env name content file_id (Some parent_id) st)
      as (H1 & H2 & H3 & _); auto.
Qed.

Lemma run_tool_accepted env c st h :
  service st = Some h -> accepted (fst (Server.run_tool env c st)).
Proof.
  intros Hs. destruct c; cbn [Server.run_tool].
  - now apply (accepted_list_directory env _ _ st h).
  - now apply (accepted_create_folder env _ _ st h).
  - now apply (accepted_navigate_path env _ st h).
  - now apply (accepted_read_file env _ _ _ st h).
  - now apply (accepted_write_file env _ _ _ _ st h).
Qed.

Lemma serve_keeps_session :
  forall env calls st h,
    service st = Some h ->
    List.length (fst (Server.serve env calls st)) = List.length calls /\
    Forall accepted (fst (Server.serve env calls st)) /\
    service (snd (Server.serve env calls st)) = Some h /\
    token_file (snd (Server.serve env calls st)) = token_file st.
Proof.
  intros env calls. induction calls as [| c rest IH]; intros st h Hs.
  - cbn. auto.
  - cbn [Server.serve].
    pose proof (run_tool_accepted env c st h Hs) as Ha.
    destruct (run_tool_keeps_client env c st) as (K1 & K2 & _).
    destruct (Server.run_tool env c st) as [r st1]. cbn [fst snd] in *.
    assert (Hs1 : service st1 = Some h) by congruence.
    destruct (IH st1 h Hs1) as (L & F & S1 & T1).
    destruct (Server.serve env rest st1) as [rs st2]. cbn [fst snd] in *.
    repeat split.
    + cbn. f_equal. exact L.
    + constructor; assumption.
    + exact S1.
    + congruence.
Qed.

(** X12.  Once the client of the server holds a session, it holds one for
    the life of the process: whatever tool calls are served, in whatever
    order, each gets an answer (one envelope per call), none is refused as
    unauthenticated, the client is still bound at the end, and the token
    file stays the one of the start. *)
Theorem session_outlives_every_tool_call :
  forall env calls st h,
    service st = Some h ->
    List.length (fst (Server.serve env calls st)) = List.length calls /\
    Forall accepted (fst (Server.serve env calls st)) /\
    service (snd (Server.serve env calls st)) <> None /\
    token_file (snd (Server.serve env calls st)) = token_file st.
Proof.
  intros env calls st h Hs.
  destruct (serve_keeps_session env calls st h Hs) as (L & F & S1 & T).
  split; [exact L |]. split; [exact F |]. split; [| exact T].
  rewrite S1. discriminate.
Qed.

Lemma session_outlives_every_tool_call_witness :
  Forall accepted
         (fst (Server.serve Scenario.drive
                 [Server.NavigatePath "A/B";
                  Server.CreateFolder "B" "idA";
                  Server.ReadFile "Report.DOCX" "utf-8" "root"]
                 Scenario.logged_in)) /\
  service (snd (Server.serve Scenario.drive
                  [Server.NavigatePath "A/B";
                   Server.CreateFolder "B" "idA";
                   Server.ReadFile "Report.DOCX" "utf-8" "root"]
                  Scenario.logged_in))
  <> None.
Proof.
  destruct (session_outlives_every_tool_call Scenario.drive
              [Server.NavigatePath "A/B";
               Server.CreateFolder "B" "idA";
               Server.ReadFile "Report.DOCX" "utf-8" "root"]
              Scenario.logged_in Scenario.fresh eq_refl) as (_ & F & S1 & _).
  split; assumption.
Defined.

(** *** More on authenticate *)

Lemma authenticate_cases env st :
  authenticate env st
  = match token_file st with
    | None | Some Corrupt | Some (Pickled None) => (Ok false, st)
    | Some (Pickled (Some c)) =>
        if expired c (clock st) && truthy_opt (refresh_token c) then
          match refresh env (trace st) c with
          | Raise _ => (Ok false, log (TokenRefresh c) st)
          | Ok c' =>
              (Ok (valid c' (clock st)),
               State (if valid c' (clock st) then Some c' else service st)
                     (Some (Pickled (Some c'))) (clock st)
                     (TokenRefresh c :: trace st))
          end
        else if valid c (clock st)
             then (Ok true,
                   State (Some c) (Some (Pickled (Some c))) (clock st) (trace st))
             else (Ok false, st)
    end.
Proof.
  unfold authenticate, try_except.
  destruct (token_file st) as [[[c |] |] |] eqn:Hf; try reflexivity.
  unfold bind, pickle_load, ret, get_clock, call, write_token_file, set_service.
  destruct (expired c (clock st) && truthy_opt (refresh_token c)).
  - destruct (refresh env (trace st) c) as [c' | e]; [| reflexivity].
    cbn. destruct (valid c' (clock st)); reflexivity.
  - destruct (valid c (clock st)); cbn; rewrite ?Hf; reflexivity.
Qed.

(** X13.  Without a usable token file (the file is missing, does not
    unpickle, or holds [None]) [authenticate] returns false, raises
    nothing, makes no request and changes nothing. *)
Theorem authenticate_without_credential :
  forall env st,
    In (token_file st) [None; Some Corrupt; Some (Pickled None)] ->
    authenticate env st = (Ok false, st).
Proof.
  intros env st H. rewrite authenticate_cases.
  destruct H as [<- | [<- | [<- | []]]]; reflexivity.
Qed.

Lemma authenticate_without_credential_witness :
  authenticate Scenario.drive (State None (Some Corrupt) 1000 [])
  = (Ok false, State None (Some Corrupt) 1000 []).
Proof.
  apply (authenticate_without_credential Scenario.drive
           (State None (Some Corrupt) 1000 [])).
  cbn. auto.
Defined.

(** X14.  When the stored credential is expired, has a refresh token and
    the refresh succeeds, the refreshed credential is written to the token
    file before it is checked: [authenticate] returns whether the refreshed
    credential is valid, binds the session only then, and has replaced the
    persisted record in either case, after exactly one refresh request. *)
Theorem authenticate_persists_the_refresh :
  forall env st c c',
    token_file st = Some (Pickled (Some c)) ->
    expired c (clock st) = true ->
    truthy_opt (refresh_token c) = true ->
    refresh env (trace st) c = Ok c' ->
    authenticate env st
    = (Ok (valid c' (clock st)),
       State (if valid c' (clock st) then Some c' else service st)
             (Some (Pickled (Some c'))) (clock st)
             (TokenRefresh c :: trace st)).
Proof.
  intros env st c c' Hf Hx Hr Hc. rewrite authenticate_cases, Hf, Hx, Hr, Hc.
  reflexivity.
Qed.

Lemma authenticate_persists_the_refresh_witness :
  authenticate Desk.renewing (Scenario.logged_out Scenario.revoked)
  = (Ok true,
     State (Some (Desk.renewed Scenario.revoked))
           (Some (Pickled (Some (Desk.renewed Scenario.revoked)))) 1000
           [TokenRefresh Scenario.revoked]).
Proof.
  apply (authenticate_persists_the_refresh Desk.renewing
           (Scenario.logged_out Scenario.revoked) Scenario.revoked
           (Desk.renewed Scenario.revoked));
    reflexivity.
Defined.

Lemma authenticate_outcome env st :
  exists b,
    fst (authenticate env st) = Ok b /\
    clock (snd (authenticate env st)) = clock st /\
    (trace (snd (authenticate env st)) = trace st \/
     exists c, trace (snd (authenticate env st)) = TokenRefresh c :: trace st) /\
    (b = true ->
     exists c,
       service (snd (authenticate env st)) = Some c /\
       token_file (snd (authenticate env st)) = Some (Pickled (Some c)) /\
       valid c (clock st) = true) /\
    (b = false -> service (snd (authenticate env st)) = service st).
Proof.
  rewrite authenticate_cases.
  destruct (token_file st) as [[[c |] |] |] eqn:Hf;
    try (exists false; cbn; repeat split; auto; discriminate).
  destruct (expired c (clock st) && truthy_opt (refresh_token c)).
  - destruct (refresh env (trace st) c) as [c' | e].
    + exists (valid c' (clock st)). cbn. repeat split; eauto.
      * intros Hv. rewrite Hv. eauto.
      * intros Hv. rewrite Hv. reflexivity.
    + exists false. cbn. repeat split; eauto. discriminate.
  - destruct (valid c (clock st)) eqn:Hv.
    + exists true. cbn. repeat split; eauto. discriminate.
    + exists false. cbn. repeat split; auto. discriminate.
Qed.

(** X15.  [authenticate] never raises and asks for at most one refresh.
    When it returns true, the session is bound to a credential that is
    valid at that instant and is the one held in the token file; when it
    returns false, the session is left as it was. *)
Theorem authenticate_binds_only_valid_credentials :
  forall env st,
    exists b,
      fst (authenticate env st) = Ok b /\
      clock (snd (authenticate env st)) = clock st /\
      (trace (snd (authenticate env st)) = trace st \/
       exists c, trace (snd (authenticate env st)) = TokenRefresh c :: trace st) /\
      (b = true ->
       exists c,
         service (snd (authenticate env st)) = Some c /\
         token_file (snd (authenticate env st)) = Some (Pickled (Some c)) /\
         valid c (clock st) = true) /\
      (b = false -> service (snd (authenticate env st)) = service st).
Proof. intros env st. apply authenticate_outcome. Qed.

Lemma authenticate_binds_only_valid_credentials_witness :
  exists c,
    service (snd (authenticate Desk.renewing
                    (Scenario.logged_out Scenario.revoked))) = Some c /\
    valid c 1000 = true.
Proof.
  destruct (authenticate_binds_only_valid_credentials Desk.renewing
              (Scenario.logged_out Scenario.revoked))
    as (b & Hb & _ & _ & Ht & _).
  assert (Hbt : b = true).
  { cbn in Hb. injection Hb as <-. reflexivity. }
  destruct (Ht Hbt) as (c & Hs & _ & Hv).
  exists c. split; [exact Hs | exact Hv].
Defined.

(** X16.  A second [authenticate] right after a successful one succeeds
    again without any request and changes nothing. *)
Theorem authenticate_twice :
  forall env st,
    fst (authenticate env st) = Ok true ->
    authenticate env (snd (authenticate env st))
    = (Ok true, snd (authenticate env st)).
Proof.
  intros env st H.
  destruct (authenticate_outcome env st) as (b & Hb & Hc & _ & Ht & _).
  assert (b = true) by congruence. subst b.
  destruct (Ht eq_refl) as (c & Hs & Hf & Hv).
  set (st' := snd (authenticate env st)) in *.
  rewrite authenticate_cases, Hf, Hc.
  assert (Hx : expired c (clock st) = false).
  { unfold valid in Hv. destruct (token c); [| discriminate].
    now apply negb_true_iff in Hv. }
  rewrite Hx, Hv. cbn [andb]. f_equal.
  destruct st' as [s f k t]. cbn in *. congruence.
Qed.

Lemma authenticate_twice_witness :
  authenticate Desk.renewing
    (snd (authenticate Desk.renewing (Scenario.logged_out Scenario.revoked)))
  = (Ok true,
     snd (authenticate Desk.renewing (Scenario.logged_out Scenario.revoked))).
Proof.
  apply (authenticate_twice Desk.renewing (Scenario.logged_out Scenario.revoked)).
  reflexivity.
Defined.

(* ===================================================================== *)
(** ** Properties of the account setup and of the server login *)
(* ===================================================================== *)

Import AuthSetup.

Lemma authenticate_google_cases E s :
  authenticate_google E s
  = match load_token s with
    | Raise e => (Raise e, s)
    | Ok creds =>
        if needs_authorisation creds (site_clock s) then
          if match creds with
             | Some c => expired c (site_clock s) && truthy_opt (refresh_token c)
             | None => false
             end
          then
            match creds with
            | Some c =>
                match refresh (drive_env E) (site_trace s) c with
                | Ok c' => (Ok true, dump_token c' (log_refresh c s))
                | Raise e => (Raise e, log_refresh c s)
                end
            | None => (Ok true, s)
            end
          else
            match run_local_server E (consents s) (site_trace s) with
            | Ok c' => (Ok true, dump_token c' (count_consent s))
            | Raise e => (Raise e, count_consent s)
            end
        else (Ok true, s)
    end.
Proof.
  unfold authenticate_google.
  destruct (load_token s) as [[c |] | e]; reflexivity.
Qed.

(** X17.  [authenticate_google] leaves a valid stored credential alone: it
    returns true without a request, without running the consent flow and
    without writing the token file. *)
Theorem authenticate_google_keeps_a_valid_token :
  forall E s c,
    user_token_file s = Some (Pickled (Some c)) ->
    valid c (site_clock s) = true ->
    authenticate_google E s = (Ok true, s).
Proof.
  intros E s c Hf Hv. unfold authenticate_google, load_token. rewrite Hf.
  unfold needs_authorisation. rewrite Hv. reflexivity.
Qed.

Lemma authenticate_google_keeps_a_valid_token_witness :
  authenticate_google Desk.refusing
    (Desk.with_ana (Some (Pickled (Some Scenario.fresh))))
  = (Ok true, Desk.with_ana (Some (Pickled (Some Scenario.fresh)))).
Proof.
  apply (authenticate_google_keeps_a_valid_token Desk.refusing
           (Desk.with_ana (Some (Pickled (Some Scenario.fresh))))
           Scenario.fresh); reflexivity.
Defined.

Lemma authenticate_google_returns E s b :
  fst (authenticate_google E s) = Ok b ->
  b = true /\
  users_file (snd (authenticate_google E s)) = users_file s /\
  site_clock (snd (authenticate_google E s)) = site_clock s /\
  exists c,
    user_token_file (snd (authenticate_google E s)) = Some (Pickled (Some c)).
Proof.
  rewrite authenticate_google_cases. unfold load_token.
  destruct (user_token_file s) as [[[c |] |] |] eqn:Hf; cbn.
  - destruct (valid c (site_clock s)); cbn.
    + intros H. injection H as <-. rewrite Hf. eauto.
    + destruct (expired c (site_clock s) && truthy_opt (refresh_token c)).
      * destruct (refresh (drive_env E) (site_trace s) c); cbn;
          [| discriminate].
        intros H. injection H as <-. eauto.
      * destruct (run_local_server E (consents s) (site_trace s)); cbn;
          [| discriminate].
        intros H. injection H as <-. eauto.
  - destruct (run_local_server E (consents s) (site_trace s)); cbn;
      [| discriminate].
    intros H. injection H as <-. eauto.
  - discriminate.
  - destruct (run_local_server E (consents s) (site_trace s)); cbn;
      [| discriminate].
    intros H. injection H as <-. eauto.
Qed.

Lemma authenticate_google_raises E s e :
  fst (authenticate_google E s) = Raise e ->
  users_file (snd (authenticate_google E s)) = users_file s /\
  user_token_file (snd (authenticate_google E s)) = user_token_file s.
Proof.
  rewrite authenticate_google_cases. unfold load_token.
  destruct (user_token_file s) as [[[c |] |] |] eqn:Hf; cbn.
  - destruct (valid c (site_clock s)); cbn; [discriminate |].
    destruct (expired c (site_clock s) && truthy_opt (refresh_token c)).
    + destruct (refresh (drive_env E) (site_trace s) c); cbn;
        [discriminate | auto].
    + destruct (run_local_server E (consents s) (site_trace s)); cbn;
        [discriminate | auto].
  - destruct (run_local_server E (consents s) (site_trace s)); cbn;
      [discriminate | auto].
  - rewrite Hf. auto.
  - destruct (run_local_server E (consents s) (site_trace s)); cbn;
      [discriminate | auto].
Qed.

(** X18.  Whenever [authenticate_google] returns, it returns true and the
    token file holds a credential; when that credential is valid, a new
    [GoogleDriveAPIClient] for the user authenticates from it at once,
    without any request. *)
Theorem authenticate_google_prepares_the_client :
  forall E s b,
    fst (authenticate_google E s) = Ok b ->
    b = true /\
    exists c,
      user_token_file (snd (authenticate_google E s)) = Some (Pickled (Some c)) /\
      (valid c (site_clock s) = true ->
       authenticate (drive_env E) (new_client (snd (authenticate_google E s)))
       = (Ok true,
          State (Some c) (Some (Pickled (Some c))) (site_clock s)
                (site_trace (snd (authenticate_google E s))))).
Proof.
  intros E s b H.
  destruct (authenticate_google_returns E s b H) as (Hb & _ & Hk & c & Hf).
  split; [exact Hb |]. exists c. split; [exact Hf |].
  intros Hv. rewrite authenticate_cases. unfold new_client. cbn.
  rewrite Hf, Hk, Hv.
  assert (Hx : expired c (site_clock s) = false).
  { unfold valid in Hv. destruct (token c); [| discriminate].
    now apply negb_true_iff in Hv. }
  rewrite Hx. reflexivity.
Qed.

Lemma authenticate_google_prepares_the_client_witness :
  authenticate Scenario.drive
    (new_client (snd (authenticate_google Desk.granting Desk.empty_site)))
  = (Ok true,
     State (Some Scenario.fresh) (Some (Pickled (Some Scenario.fresh))) 1000 []).
Proof.
  destruct (authenticate_google_prepares_the_client Desk.granting
              Desk.empty_site true eq_refl) as (_ & c & Hf & Hv).
  injection Hf as <-. apply Hv. reflexivity.
Defined.

(** X19.  [authenticate_google] catches nothing: when the stored token does
    not unpickle, the refresh is rejected or the consent flow fails, the
    exception leaves the function, and the token file and the users file
    are the ones before the call. *)
Theorem authenticate_google_failure_keeps_the_files :
  forall E s e,
    fst (authenticate_google E s) = Raise e ->
    users_file (snd (authenticate_google E s)) = users_file s /\
    user_token_file (snd (authenticate_google E s)) = user_token_file s.
Proof. intros E s e. apply authenticate_google_raises. Qed.

Lemma authenticate_google_failure_keeps_the_files_witness :
  fst (authenticate_google Desk.refusing
         (Desk.with_ana (Some (Pickled (Some Scenario.revoked)))))
  = Raise Scenario.refresh_rejected /\
  user_token_file
    (snd (authenticate_google Desk.refusing
            (Desk.with_ana (Some (Pickled (Some Scenario.revoked))))))
  = Some (Pickled (Some Scenario.revoked)).
Proof.
  split; [reflexivity |].
  apply (authenticate_google_failure_keeps_the_files Desk.refusing
           (Desk.with_ana (Some (Pickled (Some Scenario.revoked))))
           Scenario.refresh_rejected).
  reflexivity.
Defined.

(** *** The [/auth] endpoint *)

Lemma lookup_app users user_id hashed other :
  lookup (users ++ [(user_id, hashed)])%list other
  = match lookup users other with
    | Some v => Some v
    | None => if String.eqb user_id other then Some hashed else None
    end.
Proof.
  induction users as [| [k v] rest IH]; cbn; [reflexivity |].
  destruct (String.eqb k other); [reflexivity | exact IH].
Qed.

Lemma authenticate_google_users E s :
  users_file (snd (authenticate_google E s)) = users_file s.
Proof.
  destruct (fst (authenticate_google E s)) as [b | e] eqn:H.
  - apply (authenticate_google_returns E s b H).
  - apply (authenticate_google_raises E s e H).
Qed.

(** X20.  A wrong password for a registered user is answered with the
    status 401, and nothing happens: no request, no consent flow, no file
    written. *)
Theorem auth_rejects_a_wrong_password :
  forall E user_id password s stored,
    lookup (load_users s) user_id = Some stored ->
    bcrypt_verify E (first_72 password) stored = false ->
    auth E user_id password s = (HTTPException 401, s).
Proof.
  intros E user_id password s stored Hl Hv. unfold auth. rewrite Hl, Hv.
  reflexivity.
Qed.

Lemma auth_rejects_a_wrong_password_witness :
  auth Desk.granting "ana" "guess" (Desk.with_ana None)
  = (HTTPException 401, Desk.with_ana None).
Proof.
  apply (auth_rejects_a_wrong_password Desk.granting "ana" "guess"
           (Desk.with_ana None) (Desk.toy_hash "s3cret"));
    reflexivity.
Defined.

(** X21.  [/auth] never touches the account of another user, and changes
    the users file only to register a user id it did not know: the hash
    stored for any other user id is the same after the call, and so is the
    hash of the user of the request when that user was registered. *)
Theorem auth_keeps_the_other_accounts :
  forall E user_id password s other,
    (other <> user_id \/ lookup (load_users s) user_id <> None) ->
    lookup (load_users (snd (auth E user_id password s))) other
    = lookup (load_users s) other.
Proof.
  intros E user_id password s other H. unfold auth.
  destruct (lookup (load_users s) user_id) as [stored |] eqn:Hl.
  - destruct (negb (bcrypt_verify E (first_72 password) stored)); [reflexivity |].
    destruct (user_token_file s).
    + destruct (authenticate (drive_env E) (new_client s)) as [[[|] | e] st];
        reflexivity.
    + pose proof (authenticate_google_users E s) as Hu.
      destruct (authenticate_google E s) as [[b | e] s2]; cbn [snd] in *;
        unfold load_users; rewrite Hu; reflexivity.
  - destruct H as [H | H]; [| congruence].
    set (s1 := save_users _ s).
    pose proof (authenticate_google_users E s1) as Hu.
    destruct (authenticate_google E s1) as [[b | e] s2]; cbn [snd] in *;
      unfold load_users at 1; rewrite Hu; subst s1; cbn [users_file save_users];
      rewrite lookup_app;
      (destruct (lookup (load_users s) other); [reflexivity |]);
      (destruct (String.eqb_spec user_id other); [congruence | reflexivity]).
Qed.

Lemma auth_keeps_the_other_accounts_witness :
  lookup (load_users (snd (auth Desk.refusing "bo" "hunter2" (Desk.with_ana None))))
         "ana"
  = Some (Desk.toy_hash "s3cret").
Proof.
  rewrite (auth_keeps_the_other_accounts Desk.refusing "bo" "hunter2"
             (Desk.with_ana None) "ana").
  - reflexivity.
  - left. discriminate.
Defined.

(** X22.  A new user is registered before the Google authorisation is
    attempted: after [/auth] for an unknown user id the users file holds the
    hash of the first 72 characters of the password for that id, also when
    the authorisation then fails and its exception leaves the endpoint. *)
Theorem auth_registers_before_authorising :
  forall E user_id password s,
    lookup (load_users s) user_id = None ->
    lookup (load_users (snd (auth E user_id password s))) user_id
    = Some (bcrypt_hash E (first_72 password)).
Proof.
  intros E user_id password s Hl. unfold auth. rewrite Hl.
  set (s1 := save_users _ s).
  pose proof (authenticate_google_users E s1) as Hu.
  destruct (authenticate_google E s1) as [[b | e] s2]; cbn [snd] in *;
    unfold load_users at 1; rewrite Hu; subst s1; cbn [users_file save_users];
    rewrite lookup_app, Hl, String.eqb_refl; reflexivity.
Qed.

Lemma auth_registers_before_authorising_witness :
  fst (auth Desk.refusing "bo" "hunter2" (Desk.with_ana None))
  = Propagated Desk.consent_refused /\
  lookup (load_users (snd (auth Desk.refusing "bo" "hunter2" (Desk.with_ana None))))
         "bo"
  = Some (Desk.toy_hash "hunter2").
Proof.
  split; [reflexivity |].
  apply (auth_registers_before_authorising Desk.refusing "bo" "hunter2"
           (Desk.with_ana None)).
  reflexivity.
Defined.

(** X23.  After a registration whose consent flow failed, the user has an
    account but no token; the same request again, with the password that
    the hashing library verifies against its own hash, runs the consent
    flow a second time and, when consent is given, stores the credential
    and answers that the user was re-authenticated. *)
Theorem auth_retries_the_authorisation :
  forall E user_id password s e c,
    lookup (load_users s) user_id = None ->
    user_token_file s = None ->
    run_local_server E (consents s) (site_trace s) = Raise e ->
    run_local_server E (S (consents s)) (site_trace s) = Ok c ->
    bcrypt_verify E (first_72 password) (bcrypt_hash E (first_72 password)) = true ->
    fst (auth E user_id password s) = Propagated e /\
    user_token_file (snd (auth E user_id password s)) = None /\
    fst (auth E user_id password (snd (auth E user_id password s)))
    = Reauthenticated user_id /\
    user_token_file
      (snd (auth E user_id password (snd (auth E user_id password s))))
    = Some (Pickled (Some c)) /\
    consents (snd (auth E user_id password (snd (auth E user_id password s))))
    = 2 + consents s.
Proof.
  intros E user_id password s e c Hl Hf He Hc Hv.
  assert (H1 : auth E user_id password s
               = (Propagated e,
                  count_consent
                    (save_users (load_users s
                                 ++ [(user_id, bcrypt_hash E (first_72 password))])%list
                                s))).
  { unfold auth. rewrite Hl. unfold authenticate_google, load_token. cbn.
    rewrite Hf. cbn. rewrite He. reflexivity. }
  rewrite H1. cbn [fst snd]. clear H1.
  set (s1 := count_consent _).
  assert (H2 : auth E user_id password s1
               = (Reauthenticated user_id, dump_token c (count_consent s1))).
  { unfold auth. unfold load_users at 1. subst s1.
    cbn [users_file count_consent save_users].
    rewrite lookup_app, Hl, String.eqb_refl, Hv. cbn [negb].
    cbn [user_token_file count_consent save_users]. rewrite Hf.
    unfold authenticate_google, load_token. cbn. rewrite Hf. cbn. rewrite Hc.
    reflexivity. }
  rewrite H2. subst s1. cbn. auto.
Qed.

Lemma auth_retries_the_authorisation_witness :
  fst (auth
         (Collaborators Scenario.drive Desk.toy_hash
            (fun password stored => String.eqb (Desk.toy_hash password) stored)
            (fun runs _ => match runs with
                           | O => Raise Desk.consent_refused
                           | S _ => Ok Scenario.fresh
                           end))
         "bo" "hunter2"
         (snd (auth
                 (Collaborators Scenario.drive Desk.toy_hash
                    (fun password stored =>
                       String.eqb (Desk.toy_hash password) stored)
                    (fun runs _ => match runs with
                                   | O => Raise Desk.consent_refused
                                   | S _ => Ok Scenario.fresh
                                   end))
                 "bo" "hunter2" Desk.empty_site)))
  = Reauthenticated "bo".
Proof.
  apply (auth_retries_the_authorisation
           (Collaborators Scenario.drive Desk.toy_hash
              (fun password stored => String.eqb (Desk.toy_hash password) stored)
              (fun runs _ => match runs with
                             | O => Raise Desk.consent_refused
                             | S _ => Ok Scenario.fresh
                             end))
           "bo" "hunter2" Desk.empty_site Desk.consent_refused Scenario.fresh);
    reflexivity.
Defined.

(** *** The login of the server *)

Lemma login_user_success E typed_user typed_password s st :
  fst (Server.login_user E typed_user typed_password s) = Some st ->
  exists stored c,
    lookup (load_users s) (Server.strip typed_user) = Some stored /\
    bcrypt_verify E (first_72 (Server.strip typed_password)) stored = true /\
    service st = Some c /\
    valid c (site_clock s) = true.
Proof.
  unfold Server.login_user.
  destruct (load_users s) as [| u users] eqn:Hu; [discriminate |].
  destruct (lookup (u :: users) (Server.strip typed_user)) as [stored |];
    [| discriminate].
  destruct (bcrypt_verify E (first_72 (Server.strip typed_password)) stored)
    eqn:Hv; [| discriminate].
  cbn [negb].
  destruct (authenticate_outcome (drive_env E) (new_client s))
    as (b & Hb & _ & _ & Ht & _).
  destruct (authenticate (drive_env E) (new_client s)) as [[[|] | e] st1];
    cbn [fst snd] in *; try discriminate.
  intros H. injection H as <-.
  assert (b = true) by congruence. subst b.
  destruct (Ht eq_refl) as (c & Hs & _ & Hvalid).
  exists stored, c. auto.
Qed.

(** X24.  [login_user] hands out a client only when the user id typed
    (without surrounding white space) is registered, the password typed
    (without surrounding white space, cut to 72 characters) verifies
    against the stored hash, and [authenticate] succeeded: the client then
    holds a session whose credential is valid.  When the user id is unknown
    or the password does not verify, there is no client and nothing was
    attempted: no request, no token file written. *)
Theorem login_user_checks_before_it_connects :
  forall E typed_user typed_password s,
    (forall st,
        fst (Server.login_user E typed_user typed_password s) = Some st ->
        exists stored c,
          lookup (load_users s) (Server.strip typed_user) = Some stored /\
          bcrypt_verify E (first_72 (Server.strip typed_password)) stored = true /\
          service st = Some c /\
          valid c (site_clock s) = true) /\
    ((lookup (load_users s) (Server.strip typed_user) = None \/
      exists stored,
        lookup (load_users s) (Server.strip typed_user) = Some stored /\
        bcrypt_verify E (first_72 (Server.strip typed_password)) stored = false) ->
     Server.login_user E typed_user typed_password s = (None, s)).
Proof.
  intros E typed_user typed_password s. split.
  - intros st. apply login_user_success.
  - intros H. unfold Server.login_user.
    destruct (load_users s) as [| u users]; [reflexivity |].
    destruct H as [-> | (stored & -> & ->)]; reflexivity.
Qed.

Lemma login_user_checks_before_it_connects_witness :
  Server.login_user Desk.granting " ana " "wrong"
                    (Desk.with_ana (Some (Pickled (Some Scenario.fresh))))
  = (None, Desk.with_ana (Some (Pickled (Some Scenario.fresh)))).
Proof.
  apply (login_user_checks_before_it_connects Desk.granting " ana " "wrong"
           (Desk.with_ana (Some (Pickled (Some Scenario.fresh))))).
  right. exists (Desk.toy_hash "s3cret"). split; reflexivity.
Defined.

(** X25.  The server only runs with the client that [login_user] handed
    out, so none of its tool calls is ever refused as unauthenticated:
    after a successful login every call of every sequence gets an answer
    other than "Not authenticated". *)
Theorem logged_in_server_serves_every_call :
  forall E typed_user typed_password s st calls,
    fst (Server.login_user E typed_user typed_password s) = Some st ->
    List.length (fst (Server.serve (drive_env E) calls st)) = List.length calls /\
    Forall accepted (fst (Server.serve (drive_env E) calls st)).
Proof.
  intros E typed_user typed_password s st calls H.
  destruct (login_user_success E typed_user typed_password s st H)
    as (stored & c & _ & _ & Hs & _).
  destruct (serve_keeps_session (drive_env E) calls st c Hs) as (L & F & _).
  auto.
Qed.

Lemma logged_in_server_serves_every_call_witness :
  Forall accepted
         (fst (Server.serve Scenario.drive
                 [Server.ListDirectory "root" 100; Server.NavigatePath "A/B"]
                 (State (Some Scenario.fresh) (Some (Pickled (Some Scenario.fresh)))
                        1000 []))).
Proof.
  apply (logged_in_server_serves_every_call Desk.granting "ana" "s3cret "
           (Desk.with_ana (Some (Pickled (Some Scenario.fresh))))
           (State (Some Scenario.fresh) (Some (Pickled (Some Scenario.fresh)))
                  1000 [])
           [Server.ListDirectory "root" 100; Server.NavigatePath "A/B"]).
  reflexivity.
Defined.

(* ===================================================================== *)
(** ** Further properties of the write and read paths *)
(* ===================================================================== *)

(** X26.  A pre-built binary passes through [write_file] verbatim under
    every name whose kind is not PDF, text or JSON (spreadsheets,
    presentations, word-processing documents, images, videos and unknown
    extensions): when the content base64-decodes, the payload is the decoded
    bytes and no document is synthesised; in particular the base64 text of
    any bytes uploads those bytes. *)
Theorem base64_content_is_uploaded_verbatim :
  forall env name,
    _get_mime_type name <> PDF_MIME ->
    startswith (_get_mime_type name) "text/" = false ->
    _get_mime_type name <> "application/json" ->
    (forall content payload,
        b64decode content = Ok payload ->
        encode_content env (_get_mime_type name) content = Ok payload) /\
    (forall raw,
        encode_content env (_get_mime_type name) (b64encode raw) = Ok raw).
Proof.
  intros env name Hp Ht Hj.
  assert (H : forall content payload,
             b64decode content = Ok payload ->
             encode_content env (_get_mime_type name) content = Ok payload).
  { intros content payload Hb. unfold encode_content.
    apply String.eqb_neq in Hp, Hj. rewrite Hp, Ht, Hj, Hb. cbn [orb].
    destruct (String.eqb (_get_mime_type name) XLSX_MIME),
      (String.eqb (_get_mime_type name) PPTX_MIME),
      (String.eqb (_get_mime_type name) DOCX_MIME); reflexivity. }
  split; [exact H |].
  intros raw. apply H. apply b64_round_trip.
Qed.

Lemma base64_content_is_uploaded_verbatim_witness :
  encode_content Scenario.drive (_get_mime_type "deck.pptx") "UEs="
  = Ok ["P"%byte; "K"%byte].
Proof.
  apply (proj2 (base64_content_is_uploaded_verbatim Scenario.drive "deck.pptx"
                  ltac:(discriminate) eq_refl ltac:(discriminate))
               ["P"%byte; "K"%byte]).
Defined.

(** X27.  In an update ([file_id] given and not empty) [parent_id] plays
    no part: the file is renamed and its content replaced by one update
    request, and it is not moved, whatever parent is passed. *)
Theorem update_ignores_the_parent :
  forall env name content file_id parent1 parent2 st,
    truthy file_id = true ->
    write_file env name content (Some file_id) parent1 st
    = write_file env name content (Some file_id) parent2 st /\
    (forall h payload,
        service st = Some h ->
        encode_content env (_get_mime_type name) content = Ok payload ->
        trace (snd (write_file env name content (Some file_id) parent1 st))
        = FilesUpdate file_id (FileBody name None None)
                      (Media payload (_get_mime_type name))
                      "id,name,size,modifiedTime,webViewLink"
          :: trace st).
Proof.
  intros env name content file_id parent1 parent2 st Hf. split.
  - unfold write_file, write_file_body. cbn [truthy_opt]. rewrite Hf.
    reflexivity.
  - intros h payload Hs He. unfold write_file. rewrite guarded_enveloped.
    unfold write_file_body, bind, get_service, lift, call. rewrite Hs, He.
    cbn [truthy_opt]. rewrite Hf.
    destruct (files_update env (trace st) _ _ _ _); reflexivity.
Qed.

Lemma update_ignores_the_parent_witness :
  write_file Scenario.drive "notes.txt" "hi" (Some "idR") (Some "idA")
             Scenario.logged_in
  = write_file Scenario.drive "notes.txt" "hi" (Some "idR") None
               Scenario.logged_in.
Proof.
  apply (update_ignores_the_parent Scenario.drive "notes.txt" "hi" "idR"
           (Some "idA") None Scenario.logged_in).
  reflexivity.
Defined.

(** *** Names taken for identifiers *)

Lemma substring_whole s : substring 0 (String.length s) s = s.
Proof. induction s as [| c r IH]; cbn; [reflexivity | now rewrite IH]. Qed.

Lemma substring_last s : forall i k,
  (i + k = String.length s)%nat -> (0 < k)%nat ->
  last_char (substring i k s) = last_char s.
Proof.
  induction s as [| c r IH]; intros i k Hlen Hk; cbn in Hlen; [lia |].
  destruct i as [| i].
  - cbn in Hlen. subst k.
    change (S (String.length r)) with (String.length (String c r)).
    rewrite substring_whole. reflexivity.
  - cbn [substring]. rewrite IH by (cbn in Hlen; lia).
    destruct r as [| d r']; [cbn in Hlen; lia | reflexivity].
Qed.

Lemma endswith_last s suffix :
  endswith s suffix = true -> suffix <> "" ->
  last_char s = last_char suffix.
Proof.
  unfold endswith. intros H Hne.
  apply andb_true_iff in H as [Hk He].
  apply Nat.leb_le in Hk. apply String.eqb_eq in He.
  assert (Hpos : (0 < String.length suffix)%nat).
  { destruct suffix; [congruence | cbn; lia]. }
  rewrite <- He. symmetry. apply substring_last; lia.
Qed.

Lemma capital_ending_is_no_known_extension name c :
  last_char name = Some c ->
  (65 <= ord c <= 90)%N ->
  existsb (endswith name) (map fst EXTENSION_TO_MIME) = false.
Proof.
  intros Hl Hc. cbn [map fst EXTENSION_TO_MIME existsb].
  repeat match goal with
         | |- context [endswith name ?ext] =>
             let E := fresh "E" in
             destruct (endswith name ext) eqn:E;
             [ apply endswith_last in E; [| discriminate];
               rewrite Hl in E; cbn in E; injection E as ->;
               vm_compute in Hc; destruct Hc as [H1 H2];
               exfalso; first [apply H1; reflexivity | apply H2; reflexivity]
             | ]
         end.
  reflexivity.
Qed.

(** X28.  The test that tells an identifier from a name compares the
    known extensions letter for letter, although the kind of a file is
    found without regard to letter case: an input of more than 20
    characters that ends in a capital letter (as a name with the extension
    in capitals does) is taken for an identifier, and [read_file] asks for
    the metadata of that identifier without looking the name up. *)
Theorem capital_names_are_taken_for_identifiers :
  forall name c,
    (20 < String.length name)%nat ->
    last_char name = Some c ->
    (65 <= ord c <= 90)%N ->
    looks_like_id name = true /\
    (forall env encoding parent_id st h,
        service st = Some h ->
        exists new,
          trace (snd (read_file env name encoding parent_id st))
          = (new ++ FilesGet name "id,name,mimeType,size,modifiedTime"
                 :: trace st)%list /\
          Forall (fun r => r = NextChunk name) new).
Proof.
  intros name c Hlen Hl Hc.
  assert (Hid : looks_like_id name = true).
  { unfold looks_like_id.
    rewrite (capital_ending_is_no_known_extension name c Hl Hc).
    apply Nat.ltb_lt in Hlen. rewrite Hlen. reflexivity. }
  split; [exact Hid |].
  intros env encoding parent_id st h Hs.
  unfold read_file. rewrite guarded_enveloped. unfold read_file_body.
  unfold bind at 1, get_service at 1. rewrite Hs, Hid.
  rewrite read_resolved_result. cbv zeta.
  destruct (files_get env (trace st) name _) as [metadata | e].
  - exists (repeat (NextChunk name)
                   (pulls (get_media env
                             (FilesGet name "id,name,mimeType,size,modifiedTime"
                                :: trace st) name))).
    split.
    + destruct (transfer_bytes _) as [raw | e]; [| reflexivity].
      destruct (decode_content env _ encoding raw); reflexivity.
    + apply Forall_forall. intros r Hr. now apply repeat_spec in Hr.
  - exists []. split; [reflexivity | constructor].
Qed.

Lemma capital_names_are_taken_for_identifiers_witness :
  looks_like_id "ANNUAL-REPORT-2024-FINAL.TXT" = true /\
  _get_mime_type "ANNUAL-REPORT-2024-FINAL.TXT" = "text/plain".
Proof.
  split; [| reflexivity].
  apply (capital_names_are_taken_for_identifiers
           "ANNUAL-REPORT-2024-FINAL.TXT" "T"%char);
    [cbn; lia | reflexivity | vm_compute; split; discriminate].
Defined.

(** *** When text is taken for base64 *)

Lemma mod4_shift a : ((4 + a) mod 4 = a mod 4)%nat.
Proof.
  replace (4 + a)%nat with (a + 1 * 4)%nat by lia.
  apply Nat.Div0.mod_add.
Qed.

Lemma a2b_unpadded data :
  forall quad_pos leftchar pads out,
    Forall (fun n => n <> 61%N) data ->
    (quad_pos < 4)%N ->
    (exists decoded, a2b_loop data quad_pos leftchar pads out = Ok decoded) <->
    (N.to_nat quad_pos + alphabet_count data) mod 4 = 0%nat.
Proof.
  induction data as [| n rest IH]; intros quad_pos leftchar pads out Hd Hq.
  - cbn [a2b_loop alphabet_count]. rewrite Nat.add_0_r.
    destruct (N.eqb_spec quad_pos 0) as [-> | Hn].
    + split; [reflexivity | eauto].
    + assert (N.to_nat quad_pos mod 4 <> 0)%nat.
      { rewrite Nat.mod_small by lia. lia. }
      destruct (quad_pos =? 1)%N; split;
        first [intros [d Hd']; discriminate Hd' | congruence].
  - inversion Hd as [| ? ? Hn Hr]; subst.
    cbn [a2b_loop alphabet_count].
    apply N.eqb_neq in Hn. rewrite Hn.
    destruct (table_a2b n) as [v |]; [| now apply IH].
    assert (Hcase : (quad_pos = 0 \/ quad_pos = 1 \/ quad_pos = 2 \/ quad_pos = 3)%N)
      by lia.
    destruct Hcase as [-> | [-> | [-> | ->]]]; cbn [N.eqb Pos.eqb];
      rewrite IH by (assumption || lia).
    + replace (N.to_nat 0 + S (alphabet_count rest))%nat
        with (N.to_nat 1 + alphabet_count rest)%nat by lia.
      reflexivity.
    + replace (N.to_nat 1 + S (alphabet_count rest))%nat
        with (N.to_nat 2 + alphabet_count rest)%nat by lia.
      reflexivity.
    + replace (N.to_nat 2 + S (alphabet_count rest))%nat
        with (N.to_nat 3 + alphabet_count rest)%nat by lia.
      reflexivity.
    + replace (N.to_nat 3 + S (alphabet_count rest))%nat
        with (4 + (N.to_nat 0 + alphabet_count rest))%nat by lia.
      rewrite mod4_shift. reflexivity.
Qed.

Lemma unpadded_ascii_codes content :
  unpadded_ascii content = true ->
  Forall (fun n => (n < 128)%N) (codes content) /\
  Forall (fun n => n <> 61%N) (codes content).
Proof.
  unfold unpadded_ascii. intros H. rewrite forallb_forall in H.
  split; apply Forall_forall; intros n Hn; specialize (H n Hn);
    apply andb_true_iff in H as [H1 H2].
  - now apply N.ltb_lt.
  - apply negb_true_iff in H2. now apply N.eqb_neq.
Qed.

Lemma b64decode_unpadded content :
  unpadded_ascii content = true ->
  (exists payload, b64decode content = Ok payload) <->
  (alphabet_count (codes content) mod 4 = 0)%nat.
Proof.
  intros H. destruct (unpadded_ascii_codes content H) as [Ha Hp].
  unfold b64decode. rewrite (encode_ascii_codes content Ha).
  rewrite (map_code_of_byte_of_code _ (codes_bounded content)).
  rewrite <- (a2b_unpadded (codes content) 0 0 0 [] Hp ltac:(lia)).
  destruct (a2b_loop (codes content) 0 0 0 []) as [decoded | e]; split;
    intros [x Hx]; eauto; discriminate Hx.
Qed.

(** X29.  For content of ASCII characters without "=", the number of
    letters, digits, "+" and "/" in it decides what [write_file] makes of a
    spreadsheet, presentation or word-processing name: when that number is a
    multiple of four the content base64-decodes (every other character is
    skipped) and the decoded bytes are uploaded as the file; otherwise the
    document is built from the lines of the content. *)
Theorem text_is_taken_for_base64_by_its_letter_count :
  forall env content,
    unpadded_ascii content = true ->
    ((alphabet_count (codes content) mod 4 = 0)%nat ->
     exists payload,
       b64decode content = Ok payload /\
       encode_content env XLSX_MIME content = Ok payload /\
       encode_content env PPTX_MIME content = Ok payload /\
       encode_content env DOCX_MIME content = Ok payload) /\
    ((alphabet_count (codes content) mod 4 <> 0)%nat ->
     encode_content env XLSX_MIME content
     = serialize env (ExcelFrame (map (split ","%char) (splitlines content))) /\
     encode_content env PPTX_MIME content
     = serialize env (Presentation (map (fun line => Slide 1 "Slide" line)
                                        (splitlines content))) /\
     encode_content env DOCX_MIME content
     = serialize env (WordDocument (splitlines content))).
Proof.
  intros env content H. pose proof (b64decode_unpadded content H) as Hiff.
  split; intros Hc.
  - apply Hiff in Hc as [payload Hb]. exists payload.
    repeat split; try exact Hb;
      apply encode_office_passthrough; auto.
  - destruct (b64decode content) as [payload | e] eqn:Hb.
    + exfalso. apply Hc. apply Hiff. eauto.
    + now apply (encode_office_synthesis env content e).
Qed.

Lemma text_is_taken_for_base64_by_its_letter_count_witness :
  encode_content Scenario.drive DOCX_MIME "Dear Anna,"
  = Ok [x0d; xe6; xab; x02; x79; xda] /\
  encode_content Scenario.drive DOCX_MIME "Dear Ann,"
  = serialize Scenario.drive (WordDocument ["Dear Ann,"]).
Proof.
  split.
  - destruct (proj1 (text_is_taken_for_base64_by_its_letter_count
                       Scenario.drive "Dear Anna," eq_refl) eq_refl)
      as (payload & Hb & _ & _ & Hd).
    rewrite Hd. rewrite <- Hb. reflexivity.
  - apply (proj2 (text_is_taken_for_base64_by_its_letter_count
                    Scenario.drive "Dear Ann," eq_refl)).
    discriminate.
Defined.
